(** * GitSavvy tags view: render, select and dispatch

    A shallow embedding of [core/commands/tags.py]: the report renderer
    ([GsTagsRefreshCommand.get_contents]), the line parsing shared by the
    selection commands, and the command callbacks, followed by the
    properties of the tag-listing design that hold (or fail) on them.

    Python [str] values are [string]s of 8-bit code points, [len] is
    [String.length], a tuple or list is a [list], the module-level dict
    [view_section_ranges] is a [gmap] keyed by the view id.  Calls on the
    editor and on git are recorded as a trace of [event]s; an uncaught
    Python exception ends the trace with the exception. *)

From Stdlib Require Import ZArith Lia Bool List Ascii String.
From stdpp Require Import base option list gmap strings.

Local Open Scope nat_scope.

(** ** Python string operations *)

Module Py.

(** The one-character string "\n". *)
Definition nl_char : ascii := ascii_of_nat 10.
Definition nl : string := String nl_char EmptyString.

(** [s[:n]] for [n >= 0]. *)
Fixpoint str_take (n : nat) (s : string) : string :=
  match n, s with
  | S n', String c s' => String c (str_take n' s')
  | _, _ => EmptyString
  end.

(** [s[n:]] for [n >= 0]. *)
Fixpoint str_drop (n : nat) (s : string) : string :=
  match n, s with
  | S n', String _ s' => str_drop n' s'
  | _, _ => s
  end.

(** [s[:-1]]. *)
Definition str_drop_last (s : string) : string :=
  str_take (String.length s - 1) s.

(** [sep.join(l)]. *)
Fixpoint join (sep : string) (l : list string) : string :=
  match l with
  | [] => EmptyString
  | [x] => x
  | x :: l' => x +:+ sep +:+ join sep l'
  end.

(** [c.isspace()] on the code points below 256: the ASCII white space
    9-13 and 32, the separators 28-31, NEL (133) and NBSP (160). *)
Definition isspace (c : ascii) : bool :=
  let n := nat_of_ascii c in
  ((9 <=? n) && (n <=? 13)) || ((28 <=? n) && (n <=? 32))
  || (n =? 133) || (n =? 160).

Fixpoint lstrip (s : string) : string :=
  match s with
  | String c s' => if isspace c then lstrip s' else s
  | EmptyString => EmptyString
  end.

Fixpoint rstrip (s : string) : string :=
  match s with
  | String c s' =>
      match rstrip s' with
      | EmptyString => if isspace c then EmptyString else String c EmptyString
      | r => String c r
      end
  | EmptyString => EmptyString
  end.

(** [s.strip()]. *)
Definition strip (s : string) : string := rstrip (lstrip s).

(** [s.split()] with no argument: the maximal runs of non-space
    characters.  [cur] is the run being read. *)
Fixpoint split_go (cur : string) (s : string) : list string :=
  match s with
  | EmptyString =>
      match cur with EmptyString => [] | _ => [cur] end
  | String c s' =>
      if isspace c then
        match cur with
        | EmptyString => split_go EmptyString s'
        | _ => cur :: split_go EmptyString s'
        end
      else split_go (cur +:+ String c EmptyString) s'
  end.

Definition split (s : string) : list string := split_go EmptyString s.

(** [s.split("\n")]: never empty, one more field than newlines. *)
Fixpoint split_nl (s : string) : list string :=
  match s with
  | EmptyString => [EmptyString]
  | String c s' =>
      if Ascii.eqb c nl_char then EmptyString :: split_nl s'
      else match split_nl s' with
           | l :: ls => String c l :: ls
           | [] => [String c EmptyString]
           end
  end.

(** [l[i]] for a Python int [i]: negative indices count from the end,
    anything out of range is an [IndexError] ([None] here). *)
Definition index {A} (l : list A) (i : Z) : option A :=
  if (0 <=? i)%Z then l !! Z.to_nat i
  else if (0 <=? i + Z.of_nat (length l))%Z
       then l !! Z.to_nat (i + Z.of_nat (length l))
       else None.

End Py.

(** ** Constants of the module *)

Definition TAG_DELETE_MESSAGE : string := "Tag deleted.".
Definition TAG_CREATE_PROMPT : string := "Enter tag:".
Definition TAG_CREATE_MESSAGE_PROMPT : string := "Enter message:".
Definition START_PUSH_MESSAGE : string := "Starting push...".
Definition END_PUSH_MESSAGE : string := "Push complete.".

(** The templates are functions of what [str.format] fills in. *)
Definition LOCAL_TEMPLATE (lines : string) : string :=
  Py.nl +:+ "  LOCAL:" +:+ Py.nl +:+ lines +:+ Py.nl.

Definition REMOTE_TEMPLATE (remote lines : string) : string :=
  Py.nl +:+ "  REMOTE (" +:+ remote +:+ "):" +:+ Py.nl +:+ lines +:+ Py.nl.

Definition VIEW_HEADER_TEMPLATE (branch_status repo_root current_head : string)
  : string :=
  Py.nl +:+ "  BRANCH:  " +:+ branch_status +:+ Py.nl
  +:+ "  ROOT:    " +:+ repo_root +:+ Py.nl
  +:+ "  HEAD:    " +:+ current_head +:+ Py.nl.

Definition NO_TAGS_MESSAGE : string :=
  Py.nl +:+ "  Your repository has no tags." +:+ Py.nl.

Definition LOADING_TAGS_MESSAGE : string :=
  Py.nl +:+ "  Please stand by while fetching tags from remote(s)." +:+ Py.nl.

Definition KEY_BINDINGS_MENU : string :=
  Py.nl +:+
  Py.join Py.nl
    [ "  #############";
      "  ## ACTIONS ##";
      "  #############";
      "";
      "  [c] create";
      "  [d] delete";
      "  [p] push to remote";
      "  [P] push all tags to remote";
      "  [l] view commit";
      "";
      "  ###########";
      "  ## OTHER ##";
      "  ###########";
      "";
      "  [r] refresh status";
      "";
      "-" ]
  +:+ Py.nl.

(** ** Data model *)

(** What [get_tags] yields: a local tag has [sha] and [tag]; an item with
    a [remote] attribute is a group of the tags of that remote. *)
Record TagEntry := mkTag { sha : string; tag : string }.
Record RemoteGroup := mkGroup { remote : string; entries : list TagEntry }.

Inductive tag_item :=
| LocalTag (t : TagEntry)
| RemoteTags (g : RemoteGroup).

(** [sublime.Region(a, b)] with [a <= b]. *)
Record Region := mkRegion { rbegin : nat; rend : nat }.

(** What the repository client answers while a report is built. *)
Record Repo := mkRepo {
  branch_status : string;
  repo_path : string;
  latest_commit_msg_for_head : string;
  get_tags : list tag_item
}.

(** ** Effects: the trace of calls and the uncaught exception *)

Inductive exn := KeyError | IndexError | NameError.

Inductive event :=
| Git (args : list string)
    (** [self.git(args...)] *)
| GitStdin (args : list string) (stdin : string)
    (** [self.git(args..., stdin=stdin)] *)
| GitShowPanel (args : list string)
    (** [self.git(args..., show_panel=True)] *)
| GetRemotes
    (** [self.get_remotes()], a query *)
| StatusMessage (msg : string)
    (** [sublime.status_message(msg)] *)
| ShowInputPanel (caption : string)
    (** [window.show_input_panel(caption, ..., on_done, None, None)] *)
| ShowQuickPanel (choices : list string)
    (** [window.show_quick_panel(choices, on_select, ...)] *)
| RefreshGitsavvy
    (** [util.view.refresh_gitsavvy(self.view)] *)
| ReplaceViewText (view : Z) (text : string).
    (** [view.run_command("gs_replace_view_text", {"text": text})] *)

(** A computation: the calls made so far and either the exception that
    stopped it or its value. *)
Definition M (A : Type) : Type := list event * (exn + A).

Definition ret {A} (x : A) : M A := ([], inr x).
Definition raise {A} (e : exn) : M A := ([], inl e).
Definition emit (e : event) : M unit := ([e], inr tt).

Definition bind {A B} (m : M A) (k : A -> M B) : M B :=
  match m with
  | (t, inl e) => (t, inl e)
  | (t, inr x) => let '(t', r) := k x in (t ++ t', r)
  end.

Declare Scope py_scope.
Delimit Scope py_scope with py.
Notation "x <- m ;; k" := (bind m (fun x => k))
  (at level 100, m at next level, right associativity) : py_scope.
Notation "m ;; k" := (bind m (fun _ => k))
  (at level 100, right associativity) : py_scope.
Local Open Scope py_scope.

Definition trace {A} (m : M A) : list event := fst m.
Definition outcome {A} (m : M A) : exn + A := snd m.

(** [for x in l: body(x)] *)
Fixpoint for_each {A} (body : A -> M unit) (l : list A) : M unit :=
  match l with
  | [] => ret tt
  | x :: l' => body x ;; for_each body l'
  end.

(** [l[i]], raising [IndexError]. *)
Definition subscript {A} (l : list A) (i : Z) : M A :=
  match Py.index l i with
  | Some x => ret x
  | None => raise IndexError
  end.

(** Python truth of a [str]. *)
Definition nonempty (s : string) : bool :=
  match s with EmptyString => false | _ => true end.

(** The state the commands share: the text each view shows and the
    module-level dict [view_section_ranges]. *)
Record World := mkWorld {
  displayed : gmap Z string;
  view_section_ranges : gmap Z (list Region)
}.

(** ** GsTagsRefreshCommand *)

Module GsTagsRefreshCommand.

(** [sort_tag_entries]: one pass, [hasattr(item, "remote")] decides. *)
Definition sort_tag_entries (tag_list : list tag_item)
  : list TagEntry * list RemoteGroup :=
  fold_left
    (fun '(local, remotes) item =>
       match item with
       | RemoteTags g => (local, remotes ++ [g])
       | LocalTag t => (local ++ [t], remotes)
       end)
    tag_list ([], []).

(** ["    {} {}".format(t.sha[:7], t.tag)] *)
Definition tag_line (t : TagEntry) : string :=
  "    " +:+ Py.str_take 7 (sha t) +:+ " " +:+ tag t.

Definition local_text_of (local : list TagEntry) : string :=
  LOCAL_TEMPLATE (Py.join Py.nl (map tag_line local)).

Definition remote_text_of (group : RemoteGroup) : string :=
  REMOTE_TEMPLATE (remote group) (Py.join Py.nl (map tag_line (entries group))).

(** The variables [get_contents] updates while it appends blocks. *)
Record render_state := mkRender {
  cursor : nat;
  local_region : Region;
  remote_region : Region;
  view_text : string
}.

(** The closure [get_region]: the span of [new_text] at the cursor, and
    the cursor moved past it. *)
Definition get_region (cursor : nat) (new_text : string) : Region * nat :=
  let start := cursor in
  let cursor := cursor + String.length new_text in
  (mkRegion start cursor, cursor).

Definition render_local (local : list TagEntry) (st : render_state)
  : render_state :=
  match local with
  | [] => st
  | _ =>
      let local_text := local_text_of local in
      let '(r, c) := get_region (cursor st) local_text in
      mkRender c r (remote_region st) (view_text st +:+ local_text)
  end.

(** One iteration of [for group in remotes]. *)
Definition render_remote (st : render_state) (group : RemoteGroup)
  : render_state :=
  let remote_text := remote_text_of group in
  let '(r, c) := get_region (cursor st) remote_text in
  mkRender c (local_region st) r (view_text st +:+ remote_text).

Definition header_of (repo : Repo) : string :=
  VIEW_HEADER_TEMPLATE (branch_status repo) (repo_path repo)
    (latest_commit_msg_for_head repo).

(** [get_contents(loading=True)] *)
Definition get_contents_loading (repo : Repo) : string :=
  header_of repo +:+ LOADING_TAGS_MESSAGE +:+ KEY_BINDINGS_MENU.

Definition render_blocks (repo : Repo) : render_state :=
  let header := header_of repo in
  let '(local, remotes) := sort_tag_entries (get_tags repo) in
  let st0 := mkRender (String.length header) (mkRegion 0 0) (mkRegion 0 0)
               EmptyString in
  fold_left render_remote remotes (render_local local st0).

(** [get_contents(loading=False)]: the text and the tuple
    [(local_region, remote_region)]. *)
Definition get_contents (repo : Repo) : string * list Region :=
  let st := render_blocks repo in
  let view_text :=
    match view_text st with
    | EmptyString => NO_TAGS_MESSAGE
    | t => t
    end in
  (header_of repo +:+ view_text +:+ KEY_BINDINGS_MENU,
   [local_region st; remote_region st]).

(** [run_async]: the loading text replaces the text of the view; the
    recorded ranges are left as they are. *)
Definition run_async (w : World) (view : Z) (repo : Repo) : World :=
  let view_contents := get_contents_loading repo in
  mkWorld (<[view := view_contents]> (displayed w)) (view_section_ranges w).

(** [append_tags]: the ranges are stored, then the text is replaced. *)
Definition append_tags (w : World) (view : Z) (repo : Repo) : World :=
  let '(view_contents, ranges) := get_contents repo in
  let w := mkWorld (displayed w) (<[view := ranges]> (view_section_ranges w)) in
  mkWorld (<[view := view_contents]> (displayed w)) (view_section_ranges w).

End GsTagsRefreshCommand.

(** The two deferred tasks of a refresh, as the scheduler runs them; the
    repository is queried anew by each. *)
Inductive task :=
| RunAsync (view : Z) (repo : Repo)
| AppendTags (view : Z) (repo : Repo).

Definition step (w : World) (t : task) : World :=
  match t with
  | RunAsync view repo => GsTagsRefreshCommand.run_async w view repo
  | AppendTags view repo => GsTagsRefreshCommand.append_tags w view repo
  end.

Definition initial_world : World := mkWorld ∅ ∅.

Definition run_tasks (tasks : list task) : World :=
  fold_left step tasks initial_world.

(** History of a run: for each view, the text that the ranges now stored
    for it were computed with. *)
Definition recorded_for (tasks : list task) : gmap Z string :=
  fold_left
    (fun g t =>
       match t with
       | RunAsync _ _ => g
       | AppendTags view repo =>
           <[view := fst (GsTagsRefreshCommand.get_contents repo)]> g
       end)
    tasks ∅.


(** ** The view and the helper of [util.view] *)

(** What a command reads off [self.view]: its id, the text it shows and
    the selected offsets [self.view.sel()]. *)
Record View := mkView {
  view_id : Z;
  view_buffer : string;
  view_sel : list nat
}.

(** [util.view] is another module of the package; the commands are
    written against its interface. *)
Class UtilView := {
  get_lines_from_regions : View -> list nat -> list Region -> list string
}.

(** [tuple(line[4:].strip().split() for line in lines if line)] *)
Definition items_of_lines (lines : list string) : list (list string) :=
  map (fun line => Py.split (Py.strip (Py.str_drop 4 line)))
      (List.filter nonempty lines).

(** [view_section_ranges[self.view.id()][:3]] *)
Definition valid_ranges_of (view_section_ranges : gmap Z (list Region))
    (view : View) : M (list Region) :=
  match view_section_ranges !! view_id view with
  | Some ranges => ret (take 3 ranges)
  | None => raise KeyError
  end.

(** The three statements every selection command starts with. *)
Definition selected_items `{UtilView}
    (view_section_ranges : gmap Z (list Region)) (view : View)
  : M (list (list string)) :=
  valid_ranges <- valid_ranges_of view_section_ranges view ;;
  let lines := get_lines_from_regions view (view_sel view) valid_ranges in
  ret (items_of_lines lines).

(** ** GsTagDeleteCommand *)

Module GsTagDeleteCommand.

Definition delete_item (item : list string) : M unit :=
  name <- subscript item 1 ;;
  emit (Git ["tag"; "-d"; name]).

Definition run `{UtilView}
    (view_section_ranges : gmap Z (list Region)) (view : View) : M unit :=
  items <- selected_items view_section_ranges view ;;
  match items with
  | [] => ret tt
  | _ =>
      for_each delete_item items ;;
      emit RefreshGitsavvy ;;
      emit (StatusMessage TAG_DELETE_MESSAGE)
  end.

End GsTagDeleteCommand.

(** ** GsTagCreateCommand *)

(** What an input panel hands to its callback in this code: the text, or
    the integer [-1] that [on_entered_message] compares against. *)
Inductive prompt_result :=
| Cancelled
| Entered (text : string).

Module GsTagCreateCommand.

Definition run_async : M unit :=
  emit (ShowInputPanel TAG_CREATE_PROMPT).

(** Returns [self.tag_name] when the flow goes on. *)
Definition on_entered_tag (tag_name : string) : M (option string) :=
  if nonempty tag_name then
    emit (ShowInputPanel TAG_CREATE_MESSAGE_PROMPT) ;;
    ret (Some tag_name)
  else ret None.

(** [default_tag_message] is the setting of that name, applied to the
    tag name by [format]. *)
Definition on_entered_message (default_tag_message : string -> string)
    (self_tag_name : string) (message : prompt_result) : M unit :=
  match message with
  | Cancelled => ret tt
  | Entered message =>
      let message :=
        if nonempty message then message
        else default_tag_message self_tag_name in
      emit (GitStdin ["tag"; self_tag_name; "-F"; "-"] message)
  end.

(** The whole interactive flow, given the two answers. *)
Definition flow (default_tag_message : string -> string)
    (tag_name : string) (message : prompt_result) : M unit :=
  run_async ;;
  entered <- on_entered_tag tag_name ;;
  match entered with
  | Some self_tag_name =>
      on_entered_message default_tag_message self_tag_name message
  | None => ret tt
  end.

End GsTagCreateCommand.

(** ** GsTagPushCommand *)

Module GsTagPushCommand.

(** The attributes the callbacks keep on [self]; [items] is unset until
    a run with [push_all=False]. *)
Record self := mkSelf {
  items : option (list (list string));
  push_all : bool;
  remotes : list string
}.

Definition run `{UtilView} (s : self)
    (view_section_ranges : gmap Z (list Region)) (view : View)
    (push_all : bool) : M self :=
  s <- (if push_all then ret s
        else
          its <- selected_items view_section_ranges view ;;
          ret (mkSelf (Some its) (GsTagPushCommand.push_all s) (remotes s))) ;;
  ret (mkSelf (items s) push_all (remotes s)).

(** [get_remotes_keys] is [list(self.get_remotes().keys())].  The name
    [NO_REMOTES_MESSAGE] is bound nowhere in the module, so building the
    one-item panel raises. *)
Definition run_async (s : self) (get_remotes_keys : list string) : M self :=
  emit GetRemotes ;;
  let s := mkSelf (items s) (push_all s) get_remotes_keys in
  match remotes s with
  | [] => raise NameError
  | _ => emit (ShowQuickPanel (remotes s)) ;; ret s
  end.

(** The loop that builds [refs], and [refs = refs[:-1]]. *)
Fixpoint refs_loop (refs : string) (items : list (list string)) : M string :=
  match items with
  | [] => ret refs
  | item :: items' =>
      name <- subscript item 1 ;;
      refs_loop (refs +:+ "refs/tags/" +:+ name +:+ ":") items'
  end.

Definition on_select_remote (s : self) (remote_index : Z) : M unit :=
  if (remote_index =? -1)%Z then ret tt
  else
    selected_remote <- subscript (remotes s) remote_index ;;
    emit (StatusMessage START_PUSH_MESSAGE) ;;
    (if push_all s then emit (Git ["push"; selected_remote; "--tags"])
     else
       match items s with
       | Some ((_ :: _) as its) =>
           refs <- refs_loop EmptyString its ;;
           let refs := Py.str_drop_last refs in
           emit (Git ["push"; selected_remote; refs])
       | _ => ret tt
       end) ;;
    emit (StatusMessage END_PUSH_MESSAGE).

(** The whole flow: [run], the deferred [run_async], and the callback of
    the quick panel with the user's answer. *)
Definition flow `{UtilView} (s : self)
    (view_section_ranges : gmap Z (list Region)) (view : View)
    (push_all : bool) (get_remotes_keys : list string) (remote_index : Z)
  : M unit :=
  s <- run s view_section_ranges view push_all ;;
  s <- run_async s get_remotes_keys ;;
  on_select_remote s remote_index.

End GsTagPushCommand.

(** ** GsTagViewLogCommand *)

Module GsTagViewLogCommand.

Definition run `{UtilView}
    (view_section_ranges : gmap Z (list Region)) (view : View) : M unit :=
  items <- selected_items view_section_ranges view ;;
  match items with
  | [] => ret tt
  | item :: _ =>
      hash <- subscript item 0 ;;
      emit (GitShowPanel ["log"; "-1"; "--pretty=medium"; hash])
  end.

End GsTagViewLogCommand.

(** ** Selection of lines *)

(** The lines of a text with the offset each starts at. *)
Fixpoint number_lines (offset : nat) (lines : list string)
  : list (nat * string) :=
  match lines with
  | [] => []
  | line :: lines' =>
      (offset, line) :: number_lines (offset + String.length line + 1) lines'
  end.

(** An offset falls in a line from its first character to just before
    its newline. *)
Definition line_selected (regions : list nat) (l : nat * string) : bool :=
  existsb (fun p => (fst l <=? p) && (p <=? fst l + String.length (snd l)))
          regions.

(** The span of the full line (with its newline, when it has one) lies
    within one of the ranges; [n] is the length of the text. *)
Definition line_valid (n : nat) (valid_ranges : list Region)
    (l : nat * string) : bool :=
  existsb
    (fun r => (rbegin r <=? fst l)
              && (Nat.min (fst l + String.length (snd l) + 1) n <=? rend r))
    valid_ranges.

(** Modelled from the spec: [util.view.get_lines_from_regions] is defined
    in common/util/view.py, which is not part of this file.  Spec 4.2:
    for each selected position, find which line of the text it falls in;
    keep only lines whose full character offset lies within one of the
    recorded section ranges handed over; the result is in line order, each
    line once; an empty selection or one outside the ranges gives
    nothing. *)
Definition spec_get_lines_from_regions (view : View) (regions : list nat)
    (valid_ranges : list Region) : list string :=
  let text := view_buffer view in
  map snd
    (List.filter
       (fun l => line_selected regions l
                 && line_valid (String.length text) valid_ranges l)
       (number_lines 0 (Py.split_nl text))).

#[export] Instance spec_util_view : UtilView :=
  {| get_lines_from_regions := spec_get_lines_from_regions |}.

(** The view showing what the world displays for [view], with a
    selection. *)
Definition view_of (w : World) (view : Z) (sel : list nat) : View :=
  mkView view (default EmptyString (displayed w !! view)) sel.

(** ** Statements shared by the properties *)

(** The selection of [view] resolves, without an exception, to [items]. *)
Definition resolves_to `{UtilView}
    (view_section_ranges : gmap Z (list Region)) (view : View)
    (items : list (list string)) : Prop :=
  selected_items view_section_ranges view = ret items.

(** [names] are the name fields [item[1]] of [items], in order. *)
Definition names_of (items : list (list string)) (names : list string) : Prop :=
  Forall2 (fun item name => Py.index item 1 = Some name) items names.

Definition is_git (e : event) : bool :=
  match e with
  | Git _ | GitStdin _ _ | GitShowPanel _ => true
  | _ => false
  end.

Definition is_status (e : event) : bool :=
  match e with StatusMessage _ => true | _ => false end.

Definition is_prompt (e : event) : bool :=
  match e with ShowInputPanel _ | ShowQuickPanel _ => true | _ => false end.

(** The status message of a delete tells how many tags were deleted:
    some rendering of the count, different for different counts, is
    shown whenever the selection resolves to that many references. *)
Definition delete_reports_success_count : Prop :=
  exists fmt : nat -> string,
    (forall n m, fmt n = fmt m -> n = m) /\
    forall (view_section_ranges : gmap Z (list Region)) (view : View)
           (items : list (list string)) (names : list string),
      resolves_to view_section_ranges view items ->
      names_of items names ->
      items <> [] ->
      In (StatusMessage (fmt (length names)))
         (trace (GsTagDeleteCommand.run view_section_ranges view)).

(** ["refs/tags/" + name] *)
Definition ref_of (name : string) : string := "refs/tags/" +:+ name.

(** What the push of a selection is to look like when every selected ref
    is handed to git as an argument of its own (spec 6: pushRefs takes
    the remote and a sequence of refs). *)
Definition push_refs_call (remote : string) (names : list string) : event :=
  Git ("push" :: remote :: map ref_of names).

(** The characters of [s] that satisfy [f], in order. *)
Fixpoint str_filter (f : ascii -> bool) (s : string) : string :=
  match s with
  | EmptyString => EmptyString
  | String c s' => if f c then String c (str_filter f s') else str_filter f s'
  end.

(** No full render ([append_tags]) of [view] is among the tasks. *)
Definition never_fully_rendered (view : Z) (tasks : list task) : bool :=
  forallb
    (fun t =>
       match t with
       | AppendTags v _ => negb (v =? view)%Z
       | RunAsync _ _ => true
       end)
    tasks.

(** The text of the remote blocks, one after the other. *)
Definition blocks_text (remotes : list RemoteGroup) : string :=
  fold_right
    (fun g acc => GsTagsRefreshCommand.remote_text_of g +:+ acc)
    EmptyString remotes.

(** The text of the local block; nothing when there is no local tag. *)
Definition local_block (local : list TagEntry) : string :=
  match local with
  | [] => EmptyString
  | _ => GsTagsRefreshCommand.local_text_of local
  end.

(** Two half-open spans share an offset. *)
Definition region_intersects (r1 r2 : Region) : bool :=
  Nat.max (rbegin r1) (rbegin r2) <? Nat.min (rend r1) (rend r2).

Definition pairwise_disjoint (ranges : list Region) : Prop :=
  forall i j r1 r2,
    i <> j -> ranges !! i = Some r1 -> ranges !! j = Some r2 ->
    region_intersects r1 r2 = false.

(** A span of a text of length [n]. *)
Definition region_within (n : nat) (r : Region) : Prop :=
  rbegin r <= rend r /\ rend r <= n.

(** [s[i:j]] for [0 <= i <= j]. *)
Definition str_slice (i j : nat) (s : string) : string :=
  Py.str_take (j - i) (Py.str_drop i s).

(** Each line followed by a newline. *)
Definition unlines (lines : list string) : string :=
  fold_right (fun line acc => line +:+ Py.nl +:+ acc) EmptyString lines.

Fixpoint str_forallb (f : ascii -> bool) (s : string) : bool :=
  match s with
  | EmptyString => true
  | String c s' => f c && str_forallb f s'
  end.

(** A field that survives [split]: not empty and free of white space. *)
Definition no_space (s : string) : bool :=
  str_forallb (fun c => negb (Py.isspace c)) s.

Definition is_field (s : string) : bool := nonempty s && no_space s.

Definition no_nl (s : string) : bool :=
  str_forallb (fun c => negb (Ascii.eqb c Py.nl_char)) s.

(** A text that ends a line: empty, or ending in a newline. *)
Definition ends_nl (s : string) : Prop :=
  s = EmptyString \/ exists a, s = a +:+ Py.nl.

(** What the lines of a text take up, newlines included. *)
Definition lines_span (lines : list string) : nat :=
  fold_right (fun line acc => String.length line + 1 + acc) 0 lines.

(** The text that comes before the line of an entry in the report: the
    entry is a local tag, or a tag of one of the remote groups. *)
Inductive entry_placed (repo : Repo) (t : TagEntry) : string -> Prop :=
| placed_local local remotes before after :
    GsTagsRefreshCommand.sort_tag_entries (get_tags repo) = (local, remotes) ->
    local = before ++ t :: after ->
    entry_placed repo t
      (GsTagsRefreshCommand.header_of repo
       +:+ Py.nl +:+ "  LOCAL:" +:+ Py.nl
       +:+ unlines (map GsTagsRefreshCommand.tag_line before))
| placed_remote local remotes gs g gs' before after :
    GsTagsRefreshCommand.sort_tag_entries (get_tags repo) = (local, remotes) ->
    remotes = gs ++ g :: gs' ->
    entries g = before ++ t :: after ->
    entry_placed repo t
      (GsTagsRefreshCommand.header_of repo
       +:+ local_block local +:+ blocks_text gs
       +:+ Py.nl +:+ "  REMOTE (" +:+ remote g +:+ "):" +:+ Py.nl
       +:+ unlines (map GsTagsRefreshCommand.tag_line before)).

(** The full line starting at [start] lies within one of the ranges the
    selection commands use. *)
Definition line_recorded (ranges : list Region) (start : nat) (line : string)
  : Prop :=
  exists r, In r (take 3 ranges) /\
            rbegin r <= start /\
            start + String.length line + 1 <= rend r.

(** The local tags, resp. the remote groups, of a tag list, in order. *)
Definition locals_of (tag_list : list tag_item) : list TagEntry :=
  flat_map (fun item => match item with LocalTag t => [t] | _ => [] end)
           tag_list.

Definition groups_of (tag_list : list tag_item) : list RemoteGroup :=
  flat_map (fun item => match item with RemoteTags g => [g] | _ => [] end)
           tag_list.

(** The two tasks of one refresh of [view]. *)
Definition refresh (view : Z) (repo : Repo) : list task :=
  [RunAsync view repo; AppendTags view repo].

(** The repository the last full render of [view] was made from. *)
Definition last_full (view : Z) (tasks : list task) : option Repo :=
  fold_left
    (fun acc t =>
       match t with
       | AppendTags v repo => if (v =? view)%Z then Some repo else acc
       | RunAsync _ _ => acc
       end)
    tasks None.

(** The text the last task on [view] put on display. *)
Definition last_text (view : Z) (tasks : list task) : option string :=
  fold_left
    (fun acc t =>
       match t with
       | AppendTags v repo =>
           if (v =? view)%Z
           then Some (fst (GsTagsRefreshCommand.get_contents repo))
           else acc
       | RunAsync v repo =>
           if (v =? view)%Z
           then Some (GsTagsRefreshCommand.get_contents_loading repo)
           else acc
       end)
    tasks None.

(** A stored tuple of section ranges: two ranges with begin <= end that
    share no offset; the slice [:3] of the commands keeps all of it. *)
Definition ranges_ok (ranges : list Region) : Prop :=
  length ranges = 2 /\
  take 3 ranges = ranges /\
  Forall (fun r => rbegin r <= rend r) ranges /\
  pairwise_disjoint ranges.

(** ** Example repositories *)

Definition tag_v1 : TagEntry := mkTag "abcdef1234567890" "v1.0".
Definition tag_v2 : TagEntry := mkTag "0123456789abcdef" "v2.0".
Definition tag_v3 : TagEntry := mkTag "fedcba9876543210" "v3.0".

Definition repo_of (tags : list tag_item) : Repo :=
  mkRepo "On branch master" "/home/u/proj" "abc1234 Initial" tags.

(** Scenario A: one local tag. *)
Definition repoA : Repo := repo_of [LocalTag tag_v1].

(** Two local tags. *)
Definition repoL2 : Repo := repo_of [LocalTag tag_v1; LocalTag tag_v2].

(** Two remotes with one tag each. *)
Definition group_origin : RemoteGroup := mkGroup "origin" [tag_v1].
Definition group_fork : RemoteGroup := mkGroup "fork" [tag_v2].
Definition repoR2 : Repo :=
  repo_of [RemoteTags group_origin; RemoteTags group_fork].
Definition worldR2 : World := run_tasks [RunAsync 5 repoR2; AppendTags 5 repoR2].

(** A local tag whose name holds a blank. *)
Definition tag_blank : TagEntry := mkTag "abcdef1234567890" "release 1".
Definition repoS : Repo := repo_of [LocalTag tag_blank].

(** A stand-in for [util.view] that hands back the given lines. *)
Definition lines_given (lines : list string) : UtilView :=
  {| get_lines_from_regions := fun _ _ _ => lines |}.

(** View 5 after one refresh of [repoA], resp. [repoL2]. *)
Definition worldA : World := run_tasks [RunAsync 5 repoA; AppendTags 5 repoA].
Definition worldL2 : World := run_tasks [RunAsync 5 repoL2; AppendTags 5 repoL2].

Definition fresh_self : GsTagPushCommand.self :=
  GsTagPushCommand.mkSelf None false [].

(** * Properties *)

(** ** Strings *)

Lemma app_cons c s t : String c s +:+ t = String c (s +:+ t).
Proof. reflexivity. Qed.

Lemma app_nil_l s : EmptyString +:+ s = s.
Proof. reflexivity. Qed.

Lemma app_nil_r s : s +:+ EmptyString = s.
Proof. induction s as [|c s IH]; [reflexivity|]. now rewrite app_cons, IH. Qed.

Lemma app_assoc s t u : (s +:+ t) +:+ u = s +:+ t +:+ u.
Proof. induction s as [|c s IH]; [reflexivity|]. now rewrite !app_cons, IH. Qed.

Lemma length_app s t :
  String.length (s +:+ t) = String.length s + String.length t.
Proof.
  induction s as [|c s IH]; [reflexivity|].
  rewrite app_cons. simpl. now rewrite IH.
Qed.

Lemma str_take_app_length s t : Py.str_take (String.length s) (s +:+ t) = s.
Proof.
  induction s as [|c s IH]; [now destruct t|].
  rewrite app_cons. simpl. now rewrite IH.
Qed.

Lemma str_drop_last_snoc s c :
  Py.str_drop_last (s +:+ String c EmptyString) = s.
Proof.
  unfold Py.str_drop_last. rewrite length_app. simpl.
  replace (String.length s + 1 - 1) with (String.length s) by lia.
  apply str_take_app_length.
Qed.

(** ** The trace monad *)

Lemma bind_ret_l {A B} (x : A) (k : A -> M B) : bind (ret x) k = k x.
Proof. unfold bind, ret. now destruct (k x). Qed.

Lemma bind_raise {A B} (e : exn) (k : A -> M B) : bind (raise e) k = raise e.
Proof. reflexivity. Qed.

Lemma bind_emit {B} (e : event) (k : unit -> M B) :
  bind (emit e) k = (e :: trace (k tt), outcome (k tt)).
Proof. unfold bind, emit, trace, outcome. now destruct (k tt). Qed.

Lemma trace_bind_ok {A B} (m : M A) (k : A -> M B) t x :
  m = (t, inr x) -> bind m k = (t ++ trace (k x), outcome (k x)).
Proof. intros ->. unfold bind, trace, outcome. now destruct (k x). Qed.

Lemma for_each_ok {A} (body : A -> M unit) (f : A -> event) (l : list A) :
  Forall (fun x => body x = emit (f x)) l ->
  for_each body l = (map f l, inr tt).
Proof.
  induction 1 as [|x l Hx _ IH]; [reflexivity|].
  simpl. rewrite Hx, bind_emit, IH. reflexivity.
Qed.

Lemma subscript_ok {A} (l : list A) (i : Z) (x : A) :
  Py.index l i = Some x -> subscript l i = ret x.
Proof. unfold subscript. now intros ->. Qed.

Lemma names_of_length items names :
  names_of items names -> length items = length names.
Proof. induction 1; simpl; congruence. Qed.

(** ** Deleting the selected tags *)

Section Delete.
Context `{UtilView}.

Lemma for_each_delete_item items names :
  names_of items names ->
  for_each GsTagDeleteCommand.delete_item items
  = (map (fun name => Git ["tag"; "-d"; name]) names, inr tt).
Proof.
  induction 1 as [|item name items names Hname _ IH]; [reflexivity|].
  simpl. unfold GsTagDeleteCommand.delete_item at 1.
  rewrite (subscript_ok _ _ _ Hname), bind_ret_l, bind_emit, IH.
  reflexivity.
Qed.

Lemma delete_run_resolved view_section_ranges view items :
  resolves_to view_section_ranges view items ->
  GsTagDeleteCommand.run view_section_ranges view
  = match items with
    | [] => ret tt
    | _ =>
        for_each GsTagDeleteCommand.delete_item items ;;
        emit RefreshGitsavvy ;;
        emit (StatusMessage TAG_DELETE_MESSAGE)
    end.
Proof.
  intros Hres. unfold GsTagDeleteCommand.run.
  rewrite Hres, bind_ret_l. reflexivity.
Qed.

(** C3 (as amended): the selection resolved, [DeleteSelected] issues one
    [git tag -d <name>] per reference, with the name field and in order,
    then asks for a refresh and shows the fixed message "Tag deleted.";
    when nothing is resolved it makes no call at all. *)
Theorem C3_delete_selected view_section_ranges view items names :
  resolves_to view_section_ranges view items ->
  names_of items names ->
  GsTagDeleteCommand.run view_section_ranges view
  = (match names with
     | [] => []
     | _ => map (fun name => Git ["tag"; "-d"; name]) names
            ++ [RefreshGitsavvy; StatusMessage TAG_DELETE_MESSAGE]
     end, inr tt).
Proof.
  intros Hres Hnames. rewrite (delete_run_resolved _ _ _ Hres).
  destruct Hnames as [|item name items names Hname Hrest]; [reflexivity|].
  erewrite trace_bind_ok
    by (apply for_each_delete_item; constructor; eassumption).
  reflexivity.
Qed.

End Delete.

(** ** Pushing the selected tags *)

Section Push.
Context `{UtilView}.

Lemma refs_loop_ok items names refs :
  names_of items names ->
  GsTagPushCommand.refs_loop refs items
  = ret (fold_left (fun acc name => acc +:+ ref_of name +:+ ":") names refs).
Proof.
  intros Hnames. revert refs.
  induction Hnames as [|item name items names Hname _ IH]; intros refs;
    [reflexivity|].
  simpl. rewrite (subscript_ok _ _ _ Hname), bind_ret_l, IH.
  unfold ref_of. now rewrite !app_assoc.
Qed.

Lemma refs_fold_join names refs name :
  fold_left (fun acc n => acc +:+ ref_of n +:+ ":") (name :: names) refs
  = refs +:+ Py.join ":" (map ref_of (name :: names)) +:+ ":".
Proof.
  revert refs name. induction names as [|n names IH]; intros refs name.
  - reflexivity.
  - change (fold_left _ (name :: n :: names) refs)
      with (fold_left (fun acc n => acc +:+ ref_of n +:+ ":") (n :: names)
              (refs +:+ ref_of name +:+ ":")).
    rewrite IH.
    change (Py.join ":" (map ref_of (name :: n :: names)))
      with (ref_of name +:+ ":" +:+ Py.join ":" (map ref_of (n :: names))).
    now rewrite !app_assoc.
Qed.

Lemma push_run_resolved s view_section_ranges view items :
  resolves_to view_section_ranges view items ->
  GsTagPushCommand.run s view_section_ranges view false
  = ret (GsTagPushCommand.mkSelf (Some items) false
           (GsTagPushCommand.remotes s)).
Proof.
  intros Hres. unfold GsTagPushCommand.run.
  rewrite Hres, !bind_ret_l. reflexivity.
Qed.

Lemma index_nonempty {A} (l : list A) i x : Py.index l i = Some x -> l <> [].
Proof.
  intros Hi ->. unfold Py.index in Hi. rewrite !lookup_nil in Hi.
  destruct (0 <=? i)%Z; [discriminate|].
  destruct (0 <=? i + _)%Z; discriminate.
Qed.

Lemma push_run_async_ok s remotes :
  remotes <> [] ->
  GsTagPushCommand.run_async s remotes
  = ([GetRemotes; ShowQuickPanel remotes],
     inr (GsTagPushCommand.mkSelf (GsTagPushCommand.items s)
            (GsTagPushCommand.push_all s) remotes)).
Proof. destruct remotes; [congruence|]. reflexivity. Qed.

(** With a non-empty resolved selection and a remote chosen, the flow
    of PushSelected with push_all=false makes exactly one git call,
    [git push <remote> <refs>], where <refs> is one argument: the refs
    refs/tags/<name> of the selected references, in order, joined by
    colons; a status message goes before and one after it. *)
Lemma push_selected_trace
    s view_section_ranges view items names remotes remote_index remote :
  resolves_to view_section_ranges view items ->
  items <> [] ->
  names_of items names ->
  remote_index <> (-1)%Z ->
  Py.index remotes remote_index = Some remote ->
  GsTagPushCommand.flow s view_section_ranges view false remotes remote_index
  = ([GetRemotes; ShowQuickPanel remotes;
      StatusMessage START_PUSH_MESSAGE;
      Git ["push"; remote; Py.join ":" (map ref_of names)];
      StatusMessage END_PUSH_MESSAGE], inr tt).
Proof.
  intros Hres Hne Hnames Hidx Hremote.
  unfold GsTagPushCommand.flow.
  rewrite (push_run_resolved _ _ _ _ Hres), bind_ret_l.
  erewrite trace_bind_ok
    by (apply push_run_async_ok; eapply index_nonempty; eassumption).
  unfold GsTagPushCommand.on_select_remote.
  destruct (Z.eqb_spec remote_index (-1)) as [|_]; [contradiction|].
  cbn [GsTagPushCommand.remotes GsTagPushCommand.push_all
       GsTagPushCommand.items].
  rewrite (subscript_ok _ _ _ Hremote), bind_ret_l.
  destruct Hnames as [|item name items names Hname Hrest]; [contradiction|].
  rewrite (refs_loop_ok (item :: items) (name :: names))
    by (constructor; assumption).
  rewrite bind_ret_l, refs_fold_join, app_nil_l, str_drop_last_snoc.
  reflexivity.
Qed.


End Push.

(** ** Cancelling a prompt *)

Section Cancel.
Context `{UtilView}.

Lemma selected_items_cases view_section_ranges view :
  selected_items view_section_ranges view = raise KeyError \/
  exists items, selected_items view_section_ranges view = ret items.
Proof.
  unfold selected_items, valid_ranges_of.
  destruct (view_section_ranges !! view_id view) as [ranges|].
  - right. rewrite bind_ret_l. eauto.
  - left. reflexivity.
Qed.

Lemma push_run_cases s view_section_ranges view push_all :
  GsTagPushCommand.run s view_section_ranges view push_all = raise KeyError \/
  exists s', GsTagPushCommand.run s view_section_ranges view push_all = ret s'.
Proof.
  unfold GsTagPushCommand.run. destruct push_all.
  - right. rewrite bind_ret_l. eauto.
  - destruct (selected_items_cases view_section_ranges view)
      as [Herr | [items Hok]].
    + left. now rewrite Herr.
    + right. rewrite Hok, !bind_ret_l. eauto.
Qed.

(** C9: a flow whose prompt is answered by the cancel signal (for the
    tag-name prompt: by empty input) makes no git call and shows no
    status message.  CreateTag with an empty name stops after its first
    prompt; CreateTag with a cancelled message prompt never calls
    [git tag]; PushSelected with a cancelled remote choice never calls
    [git push]. *)
Theorem C9_cancel_makes_no_call :
  (forall default_tag_message message,
     GsTagCreateCommand.flow default_tag_message EmptyString message
     = ([ShowInputPanel TAG_CREATE_PROMPT], inr tt)) /\
  (forall default_tag_message tag_name,
     let m := GsTagCreateCommand.flow default_tag_message tag_name Cancelled in
     List.filter is_git (trace m) = [] /\
     List.filter is_status (trace m) = [] /\
     outcome m = inr tt) /\
  (forall s view_section_ranges view push_all remotes,
     let m :=
       GsTagPushCommand.flow s view_section_ranges view push_all remotes
         (-1) in
     List.filter is_git (trace m) = [] /\
     List.filter is_status (trace m) = []).
Proof.
  split; [|split].
  - reflexivity.
  - intros dflt [|c tag_name]; repeat split.
  - intros s ranges view push_all remotes m. subst m.
    unfold GsTagPushCommand.flow.
    destruct (push_run_cases s ranges view push_all) as [-> | [s' ->]];
      [split; reflexivity|].
    rewrite bind_ret_l.
    destruct remotes as [|r remotes]; split; reflexivity.
Qed.

End Cancel.

(** ** The map of section ranges *)

Lemma append_tags_ranges w view repo v :
  view_section_ranges (GsTagsRefreshCommand.append_tags w view repo) !! v
  = if decide (view = v)
    then Some (snd (GsTagsRefreshCommand.get_contents repo))
    else view_section_ranges w !! v.
Proof.
  unfold GsTagsRefreshCommand.append_tags.
  destruct (GsTagsRefreshCommand.get_contents repo) as [contents ranges].
  simpl. apply lookup_insert.
Qed.

Lemma append_tags_displayed w view repo v :
  displayed (GsTagsRefreshCommand.append_tags w view repo) !! v
  = if decide (view = v)
    then Some (fst (GsTagsRefreshCommand.get_contents repo))
    else displayed w !! v.
Proof.
  unfold GsTagsRefreshCommand.append_tags.
  destruct (GsTagsRefreshCommand.get_contents repo) as [contents ranges].
  simpl. apply lookup_insert.
Qed.

Lemma run_async_ranges w view repo :
  view_section_ranges (GsTagsRefreshCommand.run_async w view repo)
  = view_section_ranges w.
Proof. reflexivity. Qed.

Lemma run_tasks_snoc tasks t :
  run_tasks (tasks ++ [t]) = step (run_tasks tasks) t.
Proof. unfold run_tasks. now rewrite fold_left_app. Qed.

Lemma recorded_for_snoc_append tasks view repo :
  recorded_for (tasks ++ [AppendTags view repo])
  = <[view := fst (GsTagsRefreshCommand.get_contents repo)]>
      (recorded_for tasks).
Proof. unfold recorded_for. now rewrite fold_left_app. Qed.

(** Only a full render writes the map. *)
Lemma never_fully_rendered_no_ranges view tasks :
  never_fully_rendered view tasks = true ->
  view_section_ranges (run_tasks tasks) !! view = None.
Proof.
  induction tasks as [|t tasks IH] using rev_ind; [reflexivity|].
  unfold never_fully_rendered. rewrite forallb_app, andb_true_iff.
  intros [Htasks Ht]. rewrite run_tasks_snoc.
  destruct t as [v repo | v repo]; simpl in Ht; cbn [step].
  - rewrite run_async_ranges. now apply IH.
  - rewrite append_tags_ranges.
    destruct (decide (v = view)) as [->|_]; [|now apply IH].
    rewrite Z.eqb_refl in Ht. discriminate.
Qed.

Section MissingKey.
Context `{UtilView}.

Lemma selected_items_missing view_section_ranges view :
  view_section_ranges !! view_id view = None ->
  selected_items view_section_ranges view = raise KeyError.
Proof.
  intros Hnone. unfold selected_items, valid_ranges_of. now rewrite Hnone.
Qed.

(** C10: the map of section ranges has no entry for a view that no full
    render has completed for, and on such a view DeleteSelected,
    PushSelected with push_all=false and ShowLogForSelection all stop
    with KeyError before any call is made; they do not resolve to an
    empty selection. *)
Theorem C10_selection_needs_full_render tasks (view : View) s :
  never_fully_rendered (view_id view) tasks = true ->
  let ranges := view_section_ranges (run_tasks tasks) in
  ranges !! view_id view = None /\
  GsTagDeleteCommand.run ranges view = raise KeyError /\
  GsTagPushCommand.run s ranges view false = raise KeyError /\
  GsTagViewLogCommand.run ranges view = raise KeyError.
Proof.
  intros Hnever ranges.
  pose proof (never_fully_rendered_no_ranges _ _ Hnever) as Hnone.
  pose proof (selected_items_missing ranges view Hnone) as Hsel.
  unfold GsTagDeleteCommand.run, GsTagPushCommand.run,
    GsTagViewLogCommand.run.
  rewrite Hsel. repeat split; assumption.
Qed.

End MissingKey.

(** ** Refresh and the stored ranges *)

(** C8 (as amended): a full render stores the ranges and shows the text
    they were computed with in one task: right after [append_tags] the
    ranges stored for the view are those of the text the view shows.
    The loading render in between changes the text only. *)
Theorem C8_full_render_swaps_both tasks view repo :
  let tasks' := tasks ++ [AppendTags view repo] in
  let w := run_tasks tasks' in
  displayed w !! view = Some (fst (GsTagsRefreshCommand.get_contents repo)) /\
  view_section_ranges w !! view
  = Some (snd (GsTagsRefreshCommand.get_contents repo)) /\
  recorded_for tasks' !! view = displayed w !! view /\
  forall repo',
    view_section_ranges (run_tasks (tasks' ++ [RunAsync view repo']))
    = view_section_ranges w.
Proof.
  intros tasks' w. subst w tasks'.
  rewrite run_tasks_snoc, recorded_for_snoc_append. cbn [step].
  rewrite append_tags_displayed, append_tags_ranges, lookup_insert_eq.
  destruct (decide (view = view)) as [_|]; [|contradiction].
  repeat split. intros repo'. now rewrite !run_tasks_snoc.
Qed.

(** ** The properties at the example repositories *)

Lemma push_selected_trace_witness :
  GsTagPushCommand.flow fresh_self (view_section_ranges worldL2)
    (view_of worldL2 5 [95; 110]) false ["origin"; "fork"] 1
  = ([GetRemotes; ShowQuickPanel ["origin"; "fork"];
      StatusMessage START_PUSH_MESSAGE;
      Git ["push"; "fork"; "refs/tags/v1.0:refs/tags/v2.0"];
      StatusMessage END_PUSH_MESSAGE], inr tt).
Proof.
  apply (push_selected_trace fresh_self
           (view_section_ranges worldL2) (view_of worldL2 5 [95; 110])
           [["abcdef1"; "v1.0"]; ["0123456"; "v2.0"]] ["v1.0"; "v2.0"]
           ["origin"; "fork"] 1 "fork").
  - vm_compute. reflexivity.
  - discriminate.
  - repeat constructor.
  - discriminate.
  - reflexivity.
Defined.

(** C1: with the two tags v1.0 and v2.0 selected and the remote fork
    chosen, PushSelected with push_all=false makes one git call whose
    only ref argument is the text refs/tags/v1.0:refs/tags/v2.0, the two
    refs glued by a colon into what git reads as one refspec; it is not
    the push that hands refs/tags/v1.0 and refs/tags/v2.0 to git each as
    a ref of its own. *)
Theorem C1_two_tags_pushed_as_one_refspec :
  let view := view_of worldL2 5 [95; 110] in
  let m :=
    GsTagPushCommand.flow fresh_self (view_section_ranges worldL2) view
      false ["origin"; "fork"] 1 in
  resolves_to (view_section_ranges worldL2) view
    [["abcdef1"; "v1.0"]; ["0123456"; "v2.0"]] /\
  m = ([GetRemotes; ShowQuickPanel ["origin"; "fork"];
        StatusMessage "Starting push...";
        Git ["push"; "fork"; "refs/tags/v1.0:refs/tags/v2.0"];
        StatusMessage "Push complete."], inr tt) /\
  push_refs_call "fork" ["v1.0"; "v2.0"]
  = Git ["push"; "fork"; "refs/tags/v1.0"; "refs/tags/v2.0"] /\
  List.filter is_git (trace m) <> [push_refs_call "fork" ["v1.0"; "v2.0"]].
Proof.
  vm_compute. repeat split. discriminate.
Qed.

Lemma C3_witness :
  GsTagDeleteCommand.run (view_section_ranges worldL2)
    (view_of worldL2 5 [95; 110])
  = ([Git ["tag"; "-d"; "v1.0"]; Git ["tag"; "-d"; "v2.0"];
      RefreshGitsavvy; StatusMessage "Tag deleted."], inr tt).
Proof.
  apply (C3_delete_selected (view_section_ranges worldL2)
           (view_of worldL2 5 [95; 110])
           [["abcdef1"; "v1.0"]; ["0123456"; "v2.0"]] ["v1.0"; "v2.0"]).
  - vm_compute. reflexivity.
  - repeat constructor.
Defined.

(** C3, as stated, fails: whether one tag or two are deleted, the only
    status message is the same "Tag deleted.", so no count is reported. *)
Lemma C3_counterexample : ~ delete_reports_success_count.
Proof.
  intros (fmt & Hinj & Hshown).
  pose proof (Hshown (view_section_ranges worldL2) (view_of worldL2 5 [95])
                [["abcdef1"; "v1.0"]] ["v1.0"]) as H1.
  pose proof (Hshown (view_section_ranges worldL2)
                (view_of worldL2 5 [95; 110])
                [["abcdef1"; "v1.0"]; ["0123456"; "v2.0"]]
                ["v1.0"; "v2.0"]) as H2.
  assert (fmt 1 = "Tag deleted.") as E1.
  { assert (In (StatusMessage (fmt 1))
              [Git ["tag"; "-d"; "v1.0"]; RefreshGitsavvy;
               StatusMessage "Tag deleted."]) as Hin.
    { apply H1; [vm_compute; reflexivity | repeat constructor | discriminate]. }
    simpl in Hin. destruct Hin as [[=]|[[=]|[[=]|[]]]]. congruence. }
  assert (fmt 2 = "Tag deleted.") as E2.
  { assert (In (StatusMessage (fmt 2))
              [Git ["tag"; "-d"; "v1.0"]; Git ["tag"; "-d"; "v2.0"];
               RefreshGitsavvy; StatusMessage "Tag deleted."]) as Hin.
    { apply H2; [vm_compute; reflexivity | repeat constructor | discriminate]. }
    simpl in Hin. destruct Hin as [[=]|[[=]|[[=]|[[=]|[]]]]]. congruence. }
  specialize (Hinj 1 2). rewrite E1, E2 in Hinj.
  specialize (Hinj eq_refl). discriminate.
Qed.



(** C8, as stated, fails: after a refresh of view 5, the loading render
    of the next refresh leaves the view showing the loading text while
    the ranges stored for it are those of the text shown before. *)
Lemma C8_counterexample :
  let tasks := [RunAsync 5 repoA; AppendTags 5 repoA; RunAsync 5 repoA] in
  let w := run_tasks tasks in
  view_section_ranges w !! 5%Z
  = Some (snd (GsTagsRefreshCommand.get_contents repoA)) /\
  recorded_for tasks !! 5%Z
  = Some (fst (GsTagsRefreshCommand.get_contents repoA)) /\
  displayed w !! 5%Z
  = Some (GsTagsRefreshCommand.get_contents_loading repoA) /\
  displayed w !! 5%Z <> recorded_for tasks !! 5%Z.
Proof.
  repeat split; try (vm_compute; reflexivity).
  intros Heq. apply (f_equal (fmap String.length)) in Heq.
  vm_compute in Heq. discriminate.
Qed.

Lemma C10_witness :
  let view := mkView 5 (GsTagsRefreshCommand.get_contents_loading repoA) [95] in
  let ranges := view_section_ranges (run_tasks [RunAsync 5 repoA]) in
  ranges !! 5%Z = None /\
  GsTagDeleteCommand.run ranges view = raise KeyError /\
  GsTagPushCommand.run fresh_self ranges view false = raise KeyError /\
  GsTagViewLogCommand.run ranges view = raise KeyError.
Proof.
  apply (C10_selection_needs_full_render [RunAsync 5 repoA]
           (mkView 5 (GsTagsRefreshCommand.get_contents_loading repoA) [95])
           fresh_self).
  reflexivity.
Defined.

(** ** What the renderer records *)

Section Render.
Import GsTagsRefreshCommand.

Lemma fold_render_remote remotes st :
  let st' := fold_left render_remote remotes st in
  cursor st' = cursor st + String.length (blocks_text remotes) /\
  view_text st' = view_text st +:+ blocks_text remotes /\
  local_region st' = local_region st.
Proof.
  revert st. induction remotes as [|g remotes IH]; intros st;
    cbn [fold_left blocks_text fold_right]; cbv zeta.
  - simpl. now rewrite Nat.add_0_r, app_nil_r.
  - destruct (IH (render_remote st g)) as (Hc & Ht & Hl).
    rewrite Hc, Ht, Hl. unfold render_remote, get_region.
    cbn [cursor view_text local_region].
    fold (blocks_text remotes).
    rewrite length_app, app_assoc. repeat split. lia.
Qed.

(** After the loop the remote range is the span of the last block. *)
Lemma fold_render_remote_last remotes g st :
  remote_region (fold_left render_remote (remotes ++ [g]) st)
  = mkRegion
      (cursor st + String.length (blocks_text remotes))
      (cursor st + String.length (blocks_text remotes)
       + String.length (remote_text_of g)).
Proof.
  rewrite fold_left_app. cbn [fold_left].
  destruct (fold_render_remote remotes st) as (Hc & _ & _).
  change (remote_region (render_remote ?s g))
    with (mkRegion (cursor s)
            (cursor s + String.length (remote_text_of g))).
  now rewrite Hc.
Qed.

Lemma render_local_spec local st :
  let st' := render_local local st in
  cursor st' = cursor st + String.length (local_block local) /\
  view_text st' = view_text st +:+ local_block local /\
  remote_region st' = remote_region st /\
  local_region st'
  = match local with
    | [] => local_region st
    | _ => mkRegion (cursor st)
             (cursor st + String.length (local_block local))
    end.
Proof.
  destruct local as [|t local]; simpl.
  - now rewrite Nat.add_0_r, app_nil_r.
  - repeat split.
Qed.

(** The state [get_contents] ends its loop with, in closed form. *)
Lemma render_blocks_spec repo local remotes :
  sort_tag_entries (get_tags repo) = (local, remotes) ->
  let h := String.length (header_of repo) in
  let st := render_blocks repo in
  view_text st = local_block local +:+ blocks_text remotes /\
  cursor st = h + String.length (view_text st) /\
  local_region st
  = match local with
    | [] => mkRegion 0 0
    | _ => mkRegion h (h + String.length (local_block local))
    end /\
  (remotes = [] -> remote_region st = mkRegion 0 0) /\
  (forall gs g, remotes = gs ++ [g] ->
     remote_region st
     = mkRegion
         (h + String.length (local_block local)
          + String.length (blocks_text gs))
         (h + String.length (local_block local)
          + String.length (blocks_text gs)
          + String.length (remote_text_of g))).
Proof.
  intros Hsort h st. subst st. unfold render_blocks. rewrite Hsort.
  fold h. set (st0 := mkRender h _ _ _).
  destruct (render_local_spec local st0) as (Hc1 & Ht1 & Hr1 & Hl1).
  destruct (fold_render_remote remotes (render_local local st0))
    as (Hc & Ht & Hl).
  change (cursor st0) with h in *.
  change (view_text st0) with EmptyString in *.
  change (remote_region st0) with (mkRegion 0 0) in *.
  change (local_region st0) with (mkRegion 0 0) in *.
  rewrite app_nil_l in Ht1.
  rewrite Ht, Ht1, Hl, Hl1.
  repeat split.
  - rewrite Hc, Hc1, length_app. lia.
  - intros ->. exact Hr1.
  - intros gs g ->. rewrite fold_render_remote_last, Hc1. reflexivity.
Qed.

Lemma list_nil_or_snoc {A} (l : list A) :
  l = [] \/ exists l' x, l = l' ++ [x].
Proof. induction l using rev_ind; eauto. Qed.

Lemma blocks_text_snoc gs g :
  blocks_text (gs ++ [g]) = blocks_text gs +:+ remote_text_of g.
Proof.
  unfold blocks_text. rewrite fold_right_app.
  cbn [fold_right]. rewrite app_nil_r.
  induction gs as [|g' gs IH]; cbn [fold_right]; [reflexivity|].
  now rewrite IH, app_assoc.
Qed.

Lemma region_intersects_empty_l r : region_intersects (mkRegion 0 0) r = false.
Proof. unfold region_intersects. simpl. apply Nat.ltb_ge. lia. Qed.

Lemma region_intersects_sym r1 r2 :
  region_intersects r1 r2 = region_intersects r2 r1.
Proof.
  unfold region_intersects. now rewrite Nat.max_comm, Nat.min_comm.
Qed.

Lemma pairwise_disjoint_pair r1 r2 :
  region_intersects r1 r2 = false -> pairwise_disjoint [r1; r2].
Proof.
  intros Hdis i j x y Hij Hi Hj.
  destruct i as [|[|i]], j as [|[|j]]; simpl in Hi, Hj;
    try discriminate; try congruence.
  injection Hi as <-. injection Hj as <-.
  rewrite region_intersects_sym. exact Hdis.
Qed.

Lemma length_contents repo :
  let st := render_blocks repo in
  String.length (header_of repo) + String.length (view_text st)
  <= String.length (fst (get_contents repo)).
Proof.
  unfold get_contents. simpl.
  destruct (view_text (render_blocks repo)) as [|c vt] eqn:Hvt;
    rewrite !length_app; simpl; lia.
Qed.

(** C7: for a non-empty tag list, the ranges returned by the full render
    are pairwise non-overlapping and each lies within the returned
    text. *)
Theorem C7_ranges_disjoint_and_within repo :
  get_tags repo <> [] ->
  let '(text, ranges) := get_contents repo in
  pairwise_disjoint ranges /\
  Forall (region_within (String.length text)) ranges.
Proof.
  intros _.
  pose proof (length_contents repo) as Hlen. cbv zeta in Hlen.
  destruct (sort_tag_entries (get_tags repo)) as [local remotes] eqn:Hsort.
  destruct (render_blocks_spec repo local remotes Hsort)
    as (Ht & _ & Hl & Hr0 & Hr).
  destruct (get_contents repo) as [text ranges] eqn:Hget.
  cbn [fst] in Hlen.
  unfold get_contents in Hget. injection Hget as _ <-.
  rewrite Ht, length_app in Hlen. rewrite Hl. clear Hl Ht.
  set (h := String.length (header_of repo)) in *.
  destruct (list_nil_or_snoc remotes) as [-> | (gs & g & ->)].
  - rewrite (Hr0 eq_refl). split.
    + apply pairwise_disjoint_pair.
      rewrite region_intersects_sym. apply region_intersects_empty_l.
    + destruct local as [|t local];
        (constructor; [|constructor; [|constructor]]);
        unfold region_within; cbn [rbegin rend]; lia.
  - rewrite (Hr gs g eq_refl).
    rewrite blocks_text_snoc, length_app in Hlen. split.
    + apply pairwise_disjoint_pair. destruct local.
      * apply region_intersects_empty_l.
      * unfold region_intersects. cbn [rbegin rend]. apply Nat.ltb_ge. lia.
    + destruct local as [|t local];
        (constructor; [|constructor; [|constructor]]);
        unfold region_within; cbn [rbegin rend]; lia.
Qed.

End Render.

(** ** Lines of a text *)

Lemma nl_cons s : Py.nl +:+ s = String Py.nl_char s.
Proof. reflexivity. Qed.

Lemma length_nl : String.length Py.nl = 1.
Proof. reflexivity. Qed.

Lemma split_nl_nonempty s : Py.split_nl s <> [].
Proof.
  destruct s as [|c s]; simpl; [discriminate|].
  destruct (Ascii.eqb c Py.nl_char); [discriminate|].
  destruct (Py.split_nl s); discriminate.
Qed.

Lemma split_nl_app_nl a b :
  Py.split_nl (a +:+ Py.nl +:+ b) = Py.split_nl a ++ Py.split_nl b.
Proof.
  induction a as [|c a IH].
  - rewrite app_nil_l, nl_cons. reflexivity.
  - rewrite app_cons. simpl. rewrite IH.
    destruct (Ascii.eqb c Py.nl_char); [reflexivity|].
    pose proof (split_nl_nonempty a) as Hne.
    destruct (Py.split_nl a); [contradiction|reflexivity].
Qed.

Lemma split_nl_no_nl s : no_nl s = true -> Py.split_nl s = [s].
Proof.
  induction s as [|c s IH]; [reflexivity|].
  simpl. intros [Hc Hs]%andb_true_iff.
  apply negb_true_iff in Hc. rewrite Hc, (IH Hs). reflexivity.
Qed.

Lemma lines_span_app l1 l2 :
  lines_span (l1 ++ l2) = lines_span l1 + lines_span l2.
Proof.
  unfold lines_span. induction l1 as [|x l1 IH]; simpl; [reflexivity|].
  rewrite IH. lia.
Qed.

Lemma lines_span_split_nl s : lines_span (Py.split_nl s) = String.length s + 1.
Proof.
  induction s as [|c s IH]; [reflexivity|].
  simpl. destruct (Ascii.eqb c Py.nl_char).
  - change (lines_span (EmptyString :: ?l)) with (0 + 1 + lines_span l).
    rewrite IH. lia.
  - pose proof (split_nl_nonempty s) as Hne.
    destruct (Py.split_nl s) as [|l ls]; [contradiction|].
    change (lines_span (String c l :: ls))
      with (S (String.length l) + 1 + lines_span ls).
    change (lines_span (l :: ls))
      with (String.length l + 1 + lines_span ls) in IH.
    lia.
Qed.

(** The lines of a text that ends a line, before what follows it. *)
Lemma split_nl_after_prefix prefix s :
  ends_nl prefix ->
  exists ls, Py.split_nl (prefix +:+ s) = ls ++ Py.split_nl s /\
             lines_span ls = String.length prefix.
Proof.
  intros [-> | [a ->]].
  - exists []. split; reflexivity.
  - exists (Py.split_nl a). split.
    + now rewrite app_assoc, split_nl_app_nl.
    + rewrite lines_span_split_nl, length_app, length_nl. reflexivity.
Qed.

Lemma number_lines_app offset l1 l2 :
  number_lines offset (l1 ++ l2)
  = number_lines offset l1 ++ number_lines (offset + lines_span l1) l2.
Proof.
  revert offset. induction l1 as [|x l1 IH]; intros offset; simpl.
  - now rewrite Nat.add_0_r.
  - rewrite IH. do 3 f_equal.
    change (lines_span (x :: l1)) with (String.length x + 1 + lines_span l1).
    lia.
Qed.

Lemma number_lines_bounds offset ls :
  Forall
    (fun l => offset <= fst l /\
              fst l + String.length (snd l) + 1 <= offset + lines_span ls)
    (number_lines offset ls).
Proof.
  revert offset. induction ls as [|x ls IH]; intros offset; simpl;
    constructor.
  - simpl.
    change (lines_span (x :: ls)) with (String.length x + 1 + lines_span ls).
    lia.
  - eapply Forall_impl; [apply IH|].
    intros [b c]; simpl.
    change (lines_span (x :: ls)) with (String.length x + 1 + lines_span ls).
    lia.
Qed.

Lemma filter_none {A} (f : A -> bool) (l : list A) :
  Forall (fun x => f x = false) l -> List.filter f l = [].
Proof.
  induction 1 as [|x l Hx _ IH]; simpl; [reflexivity|]. now rewrite Hx.
Qed.

Lemma line_selected_single p l :
  line_selected [p] l
  = (fst l <=? p) && (p <=? fst l + String.length (snd l)).
Proof. unfold line_selected. simpl. now rewrite orb_false_r. Qed.

(** The selection of one offset inside a line that lies within a valid
    range is that line, and nothing else. *)
Lemma get_lines_at_line id prefix line rest p valid_ranges :
  ends_nl prefix ->
  no_nl line = true ->
  String.length prefix <= p <= String.length prefix + String.length line ->
  (exists r, In r valid_ranges /\
             rbegin r <= String.length prefix /\
             String.length prefix + String.length line + 1 <= rend r) ->
  spec_get_lines_from_regions
    (mkView id (prefix +:+ line +:+ Py.nl +:+ rest) [p]) [p] valid_ranges
  = [line].
Proof.
  intros Hprefix Hline Hp (r & Hr & Hrb & Hre).
  unfold spec_get_lines_from_regions. cbn [view_buffer].
  destruct (split_nl_after_prefix prefix (line +:+ Py.nl +:+ rest) Hprefix)
    as (ls & -> & Hspan).
  rewrite split_nl_app_nl, (split_nl_no_nl line Hline).
  rewrite number_lines_app, Hspan. cbn [app number_lines].
  rewrite List.filter_app. cbn [List.filter].
  set (n := String.length (prefix +:+ line +:+ Py.nl +:+ rest)).
  assert (String.length prefix + String.length line + 1 <= n) as Hn.
  { subst n. rewrite !length_app, length_nl. lia. }
  rewrite (filter_none _ (number_lines 0 ls)).
  2:{ eapply Forall_impl; [apply number_lines_bounds|].
      intros [b c] [_ Hb]. cbn [fst snd] in *.
      rewrite line_selected_single. cbn [fst snd].
      replace (p <=? b + String.length c) with false; [now rewrite andb_false_r|].
      symmetry. apply Nat.leb_gt. lia. }
  rewrite (filter_none _ (number_lines _ (Py.split_nl rest))).
  2:{ eapply Forall_impl; [apply number_lines_bounds|].
      intros [b c] [Hb _]. cbn [fst snd] in *.
      rewrite line_selected_single. cbn [fst snd].
      replace (b <=? p) with false; [reflexivity|].
      symmetry. apply Nat.leb_gt. lia. }
  rewrite line_selected_single. cbn [fst snd].
  replace (0 + String.length prefix <=? p) with true
    by (symmetry; apply Nat.leb_le; lia).
  replace (p <=? 0 + String.length prefix + String.length line) with true
    by (symmetry; apply Nat.leb_le; lia).
  assert (line_valid n valid_ranges (0 + String.length prefix, line) = true)
    as ->.
  { unfold line_valid. apply existsb_exists. exists r. split; [exact Hr|].
    cbn [fst snd]. apply andb_true_iff. split; apply Nat.leb_le; lia. }
  reflexivity.
Qed.

(** ** Parsing a tag line *)

Lemma str_forallb_app f a b :
  str_forallb f (a +:+ b) = str_forallb f a && str_forallb f b.
Proof.
  induction a as [|c a IH]; [reflexivity|].
  rewrite app_cons. simpl. now rewrite IH, andb_assoc.
Qed.

Lemma no_space_no_nl s : no_space s = true -> no_nl s = true.
Proof.
  unfold no_space, no_nl.
  induction s as [|c s IH]; [reflexivity|].
  simpl. intros [Hc Hs]%andb_true_iff.
  rewrite (IH Hs), andb_true_r.
  destruct (Ascii.eqb_spec c Py.nl_char) as [->|_]; [|reflexivity].
  discriminate Hc.
Qed.

Lemma is_field_inv s :
  is_field s = true ->
  no_space s = true /\ exists c s', s = String c s' /\ Py.isspace c = false.
Proof.
  unfold is_field. intros [Hne Hs]%andb_true_iff. split; [exact Hs|].
  destruct s as [|c s']; [discriminate|]. exists c, s'. split; [reflexivity|].
  simpl in Hs. apply andb_true_iff in Hs as [Hc _].
  now apply negb_true_iff in Hc.
Qed.

Lemma split_go_field cur w rest :
  no_space w = true ->
  Py.split_go cur (w +:+ rest) = Py.split_go (cur +:+ w) rest.
Proof.
  revert cur. induction w as [|c w IH]; intros cur Hw.
  - now rewrite app_nil_l, app_nil_r.
  - simpl in Hw. apply andb_true_iff in Hw as [Hc Hw].
    apply negb_true_iff in Hc.
    rewrite app_cons. simpl. rewrite Hc, (IH _ Hw), app_assoc.
    reflexivity.
Qed.

(** [(a + " " + b).split()] for two fields. *)
Lemma split_two_fields a b :
  is_field a = true -> is_field b = true ->
  Py.split (a +:+ " " +:+ b) = [a; b].
Proof.
  intros (Ha & ca & a' & -> & _)%is_field_inv
         (Hb & cb & b' & -> & _)%is_field_inv.
  unfold Py.split.
  rewrite (split_go_field _ _ _ Ha), app_nil_l.
  change (" " +:+ String cb b') with (String " "%char (String cb b')).
  change (Py.split_go (String ca a') (String " "%char (String cb b')))
    with (String ca a' :: Py.split_go EmptyString (String cb b')).
  rewrite <- (app_nil_r (String cb b')) at 1.
  rewrite (split_go_field _ _ _ Hb), app_nil_l. reflexivity.
Qed.

Lemma rstrip_no_space s : no_space s = true -> Py.rstrip s = s.
Proof.
  induction s as [|c s IH]; [reflexivity|].
  simpl. intros [Hc Hs]%andb_true_iff. apply negb_true_iff in Hc.
  rewrite (IH Hs), Hc. now destruct s.
Qed.

Lemma rstrip_app_field a b :
  is_field b = true -> Py.rstrip (a +:+ b) = a +:+ b.
Proof.
  intros (Hb & cb & b' & -> & _)%is_field_inv.
  induction a as [|c a IH].
  - rewrite app_nil_l. now apply rstrip_no_space.
  - rewrite app_cons. simpl. rewrite IH.
    destruct a; reflexivity.
Qed.

Lemma strip_two_fields a b :
  is_field a = true -> is_field b = true ->
  Py.strip (a +:+ " " +:+ b) = a +:+ " " +:+ b.
Proof.
  intros Ha Hb. unfold Py.strip.
  destruct (is_field_inv a Ha) as (_ & ca & a' & -> & Hca).
  rewrite app_cons. simpl Py.lstrip. rewrite Hca.
  rewrite <- app_cons, <- app_assoc. now apply rstrip_app_field.
Qed.

(** The line rendered for an entry parses back to its two fields. *)
Lemma items_of_tag_line t :
  is_field (Py.str_take 7 (sha t)) = true ->
  is_field (tag t) = true ->
  items_of_lines [GsTagsRefreshCommand.tag_line t]
  = [[Py.str_take 7 (sha t); tag t]].
Proof.
  intros Hsha Htag. unfold items_of_lines, GsTagsRefreshCommand.tag_line.
  change ("    " +:+ ?s)
    with (String " "%char (String " "%char (String " "%char
            (String " "%char s)))).
  cbn [List.filter nonempty map Py.str_drop].
  now rewrite strip_two_fields, split_two_fields.
Qed.

Lemma no_nl_tag_line t :
  is_field (Py.str_take 7 (sha t)) = true ->
  is_field (tag t) = true ->
  no_nl (GsTagsRefreshCommand.tag_line t) = true.
Proof.
  intros [Hsha _]%is_field_inv [Htag _]%is_field_inv.
  unfold GsTagsRefreshCommand.tag_line, no_nl.
  rewrite !str_forallb_app.
  fold (no_nl (Py.str_take 7 (sha t))). fold (no_nl (tag t)).
  now rewrite (no_space_no_nl _ Hsha), (no_space_no_nl _ Htag).
Qed.

(** ** Where the renderer puts a tag line *)

Section Placement.
Import GsTagsRefreshCommand.

Lemma unlines_app l1 l2 : unlines (l1 ++ l2) = unlines l1 +:+ unlines l2.
Proof.
  unfold unlines. induction l1 as [|x l1 IH]; cbn [app fold_right].
  - reflexivity.
  - now rewrite IH, !app_assoc.
Qed.

Lemma join_unlines l : l <> [] -> Py.join Py.nl l +:+ Py.nl = unlines l.
Proof.
  induction l as [|x l IH]; [congruence|]. intros _.
  destruct l as [|y l].
  - unfold unlines. cbn [Py.join fold_right]. now rewrite app_nil_r.
  - change (Py.join Py.nl (x :: y :: l))
      with (x +:+ Py.nl +:+ Py.join Py.nl (y :: l)).
    change (unlines (x :: y :: l)) with (x +:+ Py.nl +:+ unlines (y :: l)).
    rewrite <- IH by discriminate. now rewrite !app_assoc.
Qed.

Lemma unlines_middle (f : TagEntry -> string) before t after :
  unlines (map f (before ++ t :: after))
  = unlines (map f before) +:+ f t +:+ Py.nl +:+ unlines (map f after).
Proof. rewrite map_app, unlines_app. reflexivity. Qed.

Lemma ends_nl_unlines x l : ends_nl (x +:+ Py.nl +:+ unlines l).
Proof.
  right. destruct (list_nil_or_snoc l) as [-> | (l' & y & ->)].
  - exists x. unfold unlines. cbn [fold_right]. now rewrite app_nil_r.
  - exists (x +:+ Py.nl +:+ unlines l' +:+ y).
    rewrite unlines_app. unfold unlines at 2. cbn [fold_right].
    now rewrite app_nil_r, !app_assoc.
Qed.

Lemma blocks_text_app gs gs' :
  blocks_text (gs ++ gs') = blocks_text gs +:+ blocks_text gs'.
Proof.
  unfold blocks_text. induction gs as [|g gs IH]; cbn [app fold_right].
  - reflexivity.
  - now rewrite IH, app_assoc.
Qed.

Lemma local_block_middle before t after :
  local_block (before ++ t :: after)
  = Py.nl +:+ "  LOCAL:" +:+ Py.nl
    +:+ unlines (map tag_line before)
    +:+ tag_line t +:+ Py.nl +:+ unlines (map tag_line after).
Proof.
  assert (local_block (before ++ t :: after)
          = local_text_of (before ++ t :: after)) as ->
    by now destruct before.
  unfold local_text_of, LOCAL_TEMPLATE.
  rewrite join_unlines by (now destruct before).
  now rewrite unlines_middle.
Qed.

Lemma remote_text_middle g before t after :
  entries g = before ++ t :: after ->
  remote_text_of g
  = Py.nl +:+ "  REMOTE (" +:+ remote g +:+ "):" +:+ Py.nl
    +:+ unlines (map tag_line before)
    +:+ tag_line t +:+ Py.nl +:+ unlines (map tag_line after).
Proof.
  intros Hg. unfold remote_text_of, REMOTE_TEMPLATE. rewrite Hg.
  rewrite join_unlines by (now destruct before).
  now rewrite unlines_middle.
Qed.

Lemma nonempty_or_default (s d : string) :
  0 < String.length s ->
  match s with EmptyString => d | String a s' => String a s' end = s.
Proof. destruct s; simpl; [lia|reflexivity]. Qed.

(** The text of a report that has some block. *)
Lemma get_contents_text repo local remotes :
  sort_tag_entries (get_tags repo) = (local, remotes) ->
  0 < String.length (local_block local +:+ blocks_text remotes) ->
  fst (get_contents repo)
  = header_of repo +:+ local_block local +:+ blocks_text remotes
    +:+ KEY_BINDINGS_MENU.
Proof.
  intros Hsort Hlen.
  destruct (render_blocks_spec repo local remotes Hsort) as (Ht & _).
  unfold get_contents. cbn [fst]. rewrite Ht.
  rewrite (nonempty_or_default _ _ Hlen). now rewrite !app_assoc.
Qed.

End Placement.

(** ** Render, then resolve *)

Section RoundTrip.
Import GsTagsRefreshCommand.

Lemma resolve_at_line (m : gmap Z (list Region)) id ranges prefix t rest p :
  m !! id = Some ranges ->
  ends_nl prefix ->
  is_field (Py.str_take 7 (sha t)) = true ->
  is_field (tag t) = true ->
  line_recorded ranges (String.length prefix) (tag_line t) ->
  String.length prefix <= p
  <= String.length prefix + String.length (tag_line t) ->
  resolves_to m (mkView id (prefix +:+ tag_line t +:+ Py.nl +:+ rest) [p])
    [[Py.str_take 7 (sha t); tag t]].
Proof.
  intros Hm Hprefix Hsha Htag Hrec Hp.
  unfold resolves_to, selected_items, valid_ranges_of.
  cbn [view_id view_sel]. rewrite Hm, bind_ret_l.
  cbn [get_lines_from_regions spec_util_view].
  rewrite get_lines_at_line;
    auto using no_nl_tag_line.
  now rewrite items_of_tag_line.
Qed.

(** The placement of an entry in the text of the report. *)
Lemma entry_placed_text repo t prefix :
  entry_placed repo t prefix ->
  ends_nl prefix /\
  exists rest,
    fst (get_contents repo) = prefix +:+ tag_line t +:+ Py.nl +:+ rest.
Proof.
  intros [local remotes before after Hsort ->
         |local remotes gs g gs' before after Hsort -> Hg].
  - split.
    + pose proof (ends_nl_unlines (header_of repo +:+ Py.nl +:+ "  LOCAL:")
                    (map tag_line before)) as Hends.
      now rewrite !app_assoc in Hends.
    + exists (unlines (map tag_line after) +:+ blocks_text remotes
              +:+ KEY_BINDINGS_MENU).
      rewrite (get_contents_text repo _ _ Hsort).
      * rewrite local_block_middle. now rewrite !app_assoc.
      * rewrite local_block_middle, !length_app, length_nl. lia.
  - split.
    + pose proof (ends_nl_unlines
                    (header_of repo +:+ local_block local +:+ blocks_text gs
                     +:+ Py.nl +:+ "  REMOTE (" +:+ remote g +:+ "):")
                    (map tag_line before)) as Hends.
      now rewrite !app_assoc in Hends.
    + exists (unlines (map tag_line after) +:+ blocks_text gs'
              +:+ KEY_BINDINGS_MENU).
      assert (blocks_text (gs ++ g :: gs')
              = blocks_text gs +:+ remote_text_of g +:+ blocks_text gs')
        as Hblocks by (now rewrite blocks_text_app).
      rewrite (get_contents_text repo _ _ Hsort).
      * rewrite Hblocks, (remote_text_middle g _ _ _ Hg).
        now rewrite !app_assoc.
      * rewrite Hblocks, (remote_text_middle g _ _ _ Hg), !length_app,
          length_nl. lia.
Qed.

(** C2 (as amended): an entry whose short hash and name are non-empty
    and free of white space is rendered as a full line of the report,
    and when that line lies within one of the recorded section ranges,
    resolving any offset inside the line gives exactly one reference,
    with the first 7 characters of the sha and the name of the entry. *)
Theorem C2_roundtrip_recorded_line repo t prefix p :
  entry_placed repo t prefix ->
  is_field (Py.str_take 7 (sha t)) = true ->
  is_field (tag t) = true ->
  let '(text, ranges) := get_contents repo in
  line_recorded ranges (String.length prefix) (tag_line t) ->
  String.length prefix <= p
  <= String.length prefix + String.length (tag_line t) ->
  (exists rest, text = prefix +:+ tag_line t +:+ Py.nl +:+ rest) /\
  forall (m : gmap Z (list Region)) id,
    m !! id = Some ranges ->
    resolves_to m (mkView id text [p]) [[Py.str_take 7 (sha t); tag t]].
Proof.
  intros Hplaced Hsha Htag.
  destruct (entry_placed_text repo t prefix Hplaced) as (Hends & rest & Htext).
  destruct (get_contents repo) as [text ranges]. cbn [fst] in Htext.
  intros Hrec Hp. split; [now exists rest|].
  intros m id Hm. rewrite Htext. now apply (resolve_at_line m id ranges).
Qed.

(** The lines of the local block lie within the first recorded range. *)
Lemma local_line_recorded repo local remotes before t after :
  sort_tag_entries (get_tags repo) = (local, remotes) ->
  local = before ++ t :: after ->
  line_recorded (snd (get_contents repo))
    (String.length
       (header_of repo +:+ Py.nl +:+ "  LOCAL:" +:+ Py.nl
        +:+ unlines (map tag_line before)))
    (tag_line t).
Proof.
  intros Hsort ->.
  destruct (render_blocks_spec repo _ _ Hsort) as (_ & _ & Hl & _).
  exists (local_region (render_blocks repo)). split; [left; reflexivity|].
  rewrite Hl.
  assert (match before ++ t :: after with
          | [] => mkRegion 0 0
          | _ => mkRegion (String.length (header_of repo))
                   (String.length (header_of repo)
                    + String.length (local_block (before ++ t :: after)))
          end
          = mkRegion (String.length (header_of repo))
              (String.length (header_of repo)
               + String.length (local_block (before ++ t :: after)))) as ->
    by now destruct before.
  cbn [rbegin rend].
  rewrite local_block_middle, !length_app, !length_nl. lia.
Qed.

(** The lines of the block of the last remote lie within the second. *)
Lemma last_remote_line_recorded repo local gs g before t after :
  sort_tag_entries (get_tags repo) = (local, gs ++ [g]) ->
  entries g = before ++ t :: after ->
  line_recorded (snd (get_contents repo))
    (String.length
       (header_of repo +:+ local_block local +:+ blocks_text gs
        +:+ Py.nl +:+ "  REMOTE (" +:+ remote g +:+ "):" +:+ Py.nl
        +:+ unlines (map tag_line before)))
    (tag_line t).
Proof.
  intros Hsort Hg.
  destruct (render_blocks_spec repo _ _ Hsort) as (_ & _ & _ & _ & Hr).
  exists (remote_region (render_blocks repo)).
  split; [right; left; reflexivity|].
  rewrite (Hr gs g eq_refl). cbn [rbegin rend].
  rewrite (remote_text_middle g _ _ _ Hg), !length_app, !length_nl. lia.
Qed.

End RoundTrip.

(** ** The renderer and the resolver at the example repositories *)

Section Examples.
Import GsTagsRefreshCommand.

Lemma C2_witness :
  (exists rest,
     fst (get_contents repoA)
     = (header_of repoA +:+ Py.nl +:+ "  LOCAL:" +:+ Py.nl
        +:+ unlines (map tag_line []))
       +:+ tag_line tag_v1 +:+ Py.nl +:+ rest) /\
  resolves_to {[5%Z := snd (get_contents repoA)]}
    (mkView 5 (fst (get_contents repoA)) [95]) [["abcdef1"; "v1.0"]].
Proof.
  cut ((exists rest,
          fst (get_contents repoA)
          = (header_of repoA +:+ Py.nl +:+ "  LOCAL:" +:+ Py.nl
             +:+ unlines (map tag_line []))
            +:+ tag_line tag_v1 +:+ Py.nl +:+ rest) /\
       forall (m : gmap Z (list Region)) id,
         m !! id = Some (snd (get_contents repoA)) ->
         resolves_to m (mkView id (fst (get_contents repoA)) [95])
           [["abcdef1"; "v1.0"]]).
  { intros [Htext Hres]. split; [exact Htext|].
    apply Hres. apply lookup_singleton_eq. }
  pose proof (C2_roundtrip_recorded_line repoA tag_v1
                (header_of repoA +:+ Py.nl +:+ "  LOCAL:" +:+ Py.nl
                 +:+ unlines (map tag_line []))
                95
                (placed_local repoA tag_v1 [tag_v1] [] [] [] eq_refl eq_refl)
                eq_refl eq_refl) as Hround.
  rewrite (surjective_pairing (get_contents repoA)) in Hround.
  apply Hround.
  - apply (local_line_recorded repoA [tag_v1] [] [] tag_v1 []); reflexivity.
  - vm_compute. lia.
Defined.

(** C2, as stated, fails.  The line of a tag named "release 1" resolves
    to three fields, the name field being "release"; and the line of a
    tag of the first of two remotes, whose block no recorded range
    covers, resolves to nothing. *)
Lemma C2_counterexample :
  (let '(text, ranges) := get_contents repoS in
   str_slice 90 111 text = tag_line tag_blank /\
   resolves_to {[5%Z := ranges]} (mkView 5 text [95])
     [["abcdef1"; "release"; "1"]] /\
   Py.index ["abcdef1"; "release"; "1"] 1 <> Some (tag tag_blank)) /\
  (let '(text, ranges) := get_contents repoR2 in
   str_slice 100 116 text = tag_line tag_v1 /\
   resolves_to {[5%Z := ranges]} (mkView 5 text [105]) []).
Proof.
  split.
  - vm_compute. repeat split. discriminate.
  - vm_compute. repeat split.
Qed.

(** C5: the renderer returns two ranges whatever the number of remote
    groups.  With the two groups origin and fork the text holds the block
    of origin at [80,117) and the block of fork at [117,152); the recorded
    ranges are the empty range of the omitted local block and the span of
    the block of fork, so the block of origin has no range. *)
Theorem C5_only_last_remote_recorded :
  (forall repo, length (snd (get_contents repo)) = 2) /\
  (let '(text, ranges) := get_contents repoR2 in
   str_slice 80 117 text = remote_text_of group_origin /\
   str_slice 117 152 text = remote_text_of group_fork /\
   ranges = [mkRegion 0 0; mkRegion 117 152]).
Proof.
  split; [reflexivity|]. vm_compute. repeat split.
Qed.

(** C6: the heading line of the local block lies within the local
    range; selected, it is not skipped but parsed to the single field
    "CAL:", and DeleteSelected and PushSelected stop with IndexError on
    its missing name field.  The heading of a remote block parses to two
    fields, and DeleteSelected asks git to delete a tag named after the
    second. *)
Theorem C6_heading_line_not_skipped :
  (let view := view_of worldA 5 [85] in
   str_slice 81 89 (view_buffer view) = "  LOCAL:" /\
   view_section_ranges worldA !! 5%Z = Some [mkRegion 80 107; mkRegion 0 0] /\
   resolves_to (view_section_ranges worldA) view [["CAL:"]] /\
   GsTagDeleteCommand.run (view_section_ranges worldA) view
   = raise IndexError /\
   GsTagPushCommand.flow fresh_self (view_section_ranges worldA) view false
     ["origin"] 0
   = ([GetRemotes; ShowQuickPanel ["origin"];
       StatusMessage "Starting push..."], inl IndexError)) /\
  (let view := view_of worldR2 5 [120] in
   str_slice 118 134 (view_buffer view) = "  REMOTE (fork):" /\
   GsTagDeleteCommand.run (view_section_ranges worldR2) view
   = ([Git ["tag"; "-d"; "(fork):"]; RefreshGitsavvy;
       StatusMessage "Tag deleted."], inr tt)).
Proof.
  split; vm_compute; repeat split.
Qed.

Lemma C7_witness :
  let '(text, ranges) := get_contents repoA in
  pairwise_disjoint ranges /\
  Forall (region_within (String.length text)) ranges.
Proof.
  apply (C7_ranges_disjoint_and_within repoA). discriminate.
Defined.

End Examples.

(** * Further properties of the commands *)

(** ** Sorting the tag list *)

Lemma sort_tag_entries_acc tag_list local remotes :
  fold_left
    (fun '(local, remotes) item =>
       match item with
       | RemoteTags g => (local, remotes ++ [g])
       | LocalTag t => (local ++ [t], remotes)
       end)
    tag_list (local, remotes)
  = (local ++ locals_of tag_list, remotes ++ groups_of tag_list).
Proof.
  revert local remotes.
  induction tag_list as [|item tag_list IH]; intros local remotes.
  - simpl. now rewrite !List.app_nil_r.
  - cbn [fold_left]. destruct item as [t|g]; rewrite IH; simpl;
      now rewrite <- ?List.app_assoc.
Qed.

Lemma sort_tag_entries_spec tag_list :
  GsTagsRefreshCommand.sort_tag_entries tag_list
  = (locals_of tag_list, groups_of tag_list).
Proof.
  unfold GsTagsRefreshCommand.sort_tag_entries.
  now rewrite sort_tag_entries_acc.
Qed.

Lemma length_locals_groups tag_list :
  length (locals_of tag_list) + length (groups_of tag_list)
  = length tag_list.
Proof. induction tag_list as [|[t|g] tag_list IH]; simpl; lia. Qed.

(** X1: [sort_tag_entries] splits the tag list into its local tags and
    its remote groups, each in the order of the input, dropping and
    duplicating nothing. *)
Theorem sort_tag_entries_partition tag_list :
  GsTagsRefreshCommand.sort_tag_entries tag_list
  = (locals_of tag_list, groups_of tag_list) /\
  length (locals_of tag_list) + length (groups_of tag_list)
  = length tag_list.
Proof.
  split; [apply sort_tag_entries_spec | apply length_locals_groups].
Qed.

(** ** The text and the ranges of a report *)

Section Report.
Import GsTagsRefreshCommand.

Lemma sort_nil_inv tag_list :
  sort_tag_entries tag_list = ([], []) -> tag_list = [].
Proof.
  intros Hsort.
  pose proof (sort_tag_entries_spec tag_list) as Hpart.
  pose proof (length_locals_groups tag_list) as Hlen.
  rewrite Hsort in Hpart. injection Hpart as H1 H2.
  rewrite <- H1, <- H2 in Hlen.
  destruct tag_list; [reflexivity|simpl in Hlen; lia].
Qed.

Lemma length_local_text local : 0 < String.length (local_text_of local).
Proof.
  unfold local_text_of, LOCAL_TEMPLATE. rewrite !length_app, length_nl. lia.
Qed.

Lemma length_remote_text g : 0 < String.length (remote_text_of g).
Proof.
  unfold remote_text_of, REMOTE_TEMPLATE. rewrite !length_app, length_nl.
  lia.
Qed.

(** Every block starts with a blank line, two blanks and an upper-case
    L or R. *)
Lemma blocks_start local remotes rest :
  local <> [] \/ remotes <> [] ->
  exists c s,
    (c = "L"%char \/ c = "R"%char) /\
    local_block local +:+ blocks_text remotes +:+ rest
    = String Py.nl_char (String " "%char (String " "%char (String c s))).
Proof.
  intros Hsome. destruct local as [|t local].
  - destruct remotes as [|g remotes]; [destruct Hsome; congruence|].
    exists "R"%char. eexists. split; [now right|].
    unfold local_block, blocks_text. cbn [fold_right].
    unfold remote_text_of at 1, REMOTE_TEMPLATE.
    rewrite app_nil_l, !app_assoc. reflexivity.
  - exists "L"%char. eexists. split; [now left|].
    unfold local_block, local_text_of, LOCAL_TEMPLATE.
    rewrite !app_assoc. reflexivity.
Qed.

(** X2: the report shows the no-tags message exactly when [get_tags]
    returns nothing, and then both recorded ranges are the empty range
    at 0. *)
Theorem no_tags_message_iff_no_tags repo :
  (get_tags repo = [] ->
   get_contents repo
   = (header_of repo +:+ NO_TAGS_MESSAGE +:+ KEY_BINDINGS_MENU,
      [mkRegion 0 0; mkRegion 0 0])) /\
  (fst (get_contents repo)
   = header_of repo +:+ NO_TAGS_MESSAGE +:+ KEY_BINDINGS_MENU ->
   get_tags repo = []).
Proof.
  split.
  - intros Hnone. unfold get_contents, render_blocks. rewrite Hnone.
    reflexivity.
  - intros Htext.
    destruct (sort_tag_entries (get_tags repo)) as [local remotes] eqn:Hsort.
    destruct local as [|t local], remotes as [|g remotes];
      [now apply sort_nil_inv| | |];
      (rewrite (get_contents_text repo _ _ Hsort) in Htext;
       [|rewrite length_app;
         first [pose proof (length_local_text (t :: local))
               |pose proof (length_remote_text g)];
         unfold local_block, blocks_text; cbn [fold_right];
         rewrite ?length_app; simpl String.length at 1; lia]);
      apply (inj (String.app (header_of repo))) in Htext;
      match type of Htext with
      | local_block ?l +:+ blocks_text ?r +:+ ?k = _ =>
          destruct (blocks_start l r k) as (c & s & Hc & Hstart);
            [first [now left | now right]|]
      end;
      rewrite Hstart in Htext;
      apply (f_equal (Py.str_take 4)) in Htext; cbv in Htext;
      destruct Hc as [-> | ->]; discriminate.
Qed.

Lemma str_drop_app_length a b : Py.str_drop (String.length a) (a +:+ b) = b.
Proof.
  induction a as [|c a IH]; [now destruct b|].
  rewrite app_cons. simpl. exact IH.
Qed.

Lemma str_slice_app a b c :
  str_slice (String.length a) (String.length a + String.length b)
    (a +:+ b +:+ c) = b.
Proof.
  unfold str_slice. rewrite str_drop_app_length.
  replace (String.length a + String.length b - String.length a)
    with (String.length b) by lia.
  apply str_take_app_length.
Qed.

(** X3: the recorded ranges cut the blocks out of the text.  When there
    are local tags the first range starts right after the header and the
    text between its bounds is the local block; when there are remote
    groups the text between the bounds of the second range is the block
    of the last group. *)
Theorem ranges_slice_blocks repo :
  let '(local, remotes) := sort_tag_entries (get_tags repo) in
  let '(text, ranges) := get_contents repo in
  (local <> [] ->
   exists r, ranges !! 0 = Some r /\
             rbegin r = String.length (header_of repo) /\
             str_slice (rbegin r) (rend r) text = local_text_of local) /\
  (forall gs g, remotes = gs ++ [g] ->
   exists r, ranges !! 1 = Some r /\
             str_slice (rbegin r) (rend r) text = remote_text_of g).
Proof.
  destruct (sort_tag_entries (get_tags repo)) as [local remotes] eqn:Hsort.
  destruct (render_blocks_spec repo local remotes Hsort)
    as (_ & _ & Hl & _ & Hr).
  pose proof (get_contents_text repo local remotes Hsort) as Htext.
  destruct (get_contents repo) as [text ranges] eqn:Hget.
  unfold get_contents in Hget. injection Hget as _ <-. cbn [fst] in Htext.
  split.
  - intros Hlocal. exists (local_region (render_blocks repo)).
    split; [reflexivity|]. rewrite Hl.
    destruct local as [|t local]; [congruence|]. cbn [rbegin rend].
    split; [reflexivity|].
    rewrite Htext.
    + apply str_slice_app.
    + rewrite length_app. pose proof (length_local_text (t :: local)).
      unfold local_block. lia.
  - intros gs g ->. exists (remote_region (render_blocks repo)).
    split; [reflexivity|]. rewrite (Hr gs g eq_refl). cbn [rbegin rend].
    rewrite Htext.
    + rewrite blocks_text_snoc.
      replace (header_of repo +:+ local_block local
               +:+ (blocks_text gs +:+ remote_text_of g)
               +:+ KEY_BINDINGS_MENU)
        with ((header_of repo +:+ local_block local +:+ blocks_text gs)
              +:+ remote_text_of g +:+ KEY_BINDINGS_MENU)
        by (now rewrite !app_assoc).
      replace (String.length (header_of repo)
               + String.length (local_block local)
               + String.length (blocks_text gs))
        with (String.length
                (header_of repo +:+ local_block local +:+ blocks_text gs))
        by (rewrite !length_app; lia).
      apply str_slice_app.
    + rewrite blocks_text_snoc, !length_app.
      pose proof (length_remote_text g). lia.
Qed.

End Report.

(** ** The state kept across refreshes *)

Section Refreshes.
Import GsTagsRefreshCommand.

(** The two ranges of any report. *)
Lemma get_contents_ranges repo :
  let h := String.length (header_of repo) in
  exists l1 l2 r1 r2,
    snd (get_contents repo) = [mkRegion l1 l2; mkRegion r1 r2] /\
    l1 <= l2 /\ r1 <= r2 /\ (r1 = 0 /\ r2 = 0 \/ l2 <= r1).
Proof.
  intros h.
  destruct (sort_tag_entries (get_tags repo)) as [local remotes] eqn:Hsort.
  destruct (render_blocks_spec repo local remotes Hsort)
    as (_ & _ & Hl & Hr0 & Hr).
  fold h in Hl, Hr.
  unfold get_contents. cbn [snd]. rewrite Hl.
  destruct (list_nil_or_snoc remotes) as [-> | (gs & g & ->)].
  - rewrite (Hr0 eq_refl).
    destruct local; do 4 eexists; (split; [reflexivity|]); lia.
  - rewrite (Hr gs g eq_refl).
    destruct local; do 4 eexists; (split; [reflexivity|]); lia.
Qed.

Lemma get_contents_ranges_ok repo : ranges_ok (snd (get_contents repo)).
Proof.
  destruct (get_contents_ranges repo)
    as (l1 & l2 & r1 & r2 & -> & Hl & Hr & Hlr).
  repeat split.
  - repeat constructor; assumption.
  - apply pairwise_disjoint_pair. unfold region_intersects.
    cbn [rbegin rend]. apply Nat.ltb_ge. lia.
Qed.

Lemma last_full_snoc view tasks t :
  last_full view (tasks ++ [t])
  = match t with
    | AppendTags v repo =>
        if (v =? view)%Z then Some repo else last_full view tasks
    | RunAsync _ _ => last_full view tasks
    end.
Proof. unfold last_full. rewrite fold_left_app. now destruct t. Qed.

Lemma last_text_snoc view tasks t :
  last_text view (tasks ++ [t])
  = match t with
    | AppendTags v repo =>
        if (v =? view)%Z then Some (fst (get_contents repo))
        else last_text view tasks
    | RunAsync v repo =>
        if (v =? view)%Z then Some (get_contents_loading repo)
        else last_text view tasks
    end.
Proof. unfold last_text. rewrite fold_left_app. now destruct t. Qed.

Lemma run_async_displayed w view repo v :
  displayed (run_async w view repo) !! v
  = if decide (view = v) then Some (get_contents_loading repo)
    else displayed w !! v.
Proof. unfold run_async. cbn [displayed]. apply lookup_insert. Qed.

Lemma run_tasks_lookup tasks view :
  view_section_ranges (run_tasks tasks) !! view
  = (fun repo => snd (get_contents repo)) <$> last_full view tasks /\
  displayed (run_tasks tasks) !! view = last_text view tasks.
Proof.
  induction tasks as [|t tasks [IHr IHd]] using rev_ind; [split; reflexivity|].
  rewrite run_tasks_snoc, last_full_snoc, last_text_snoc.
  destruct t as [v repo | v repo]; cbn [step].
  - rewrite run_async_ranges, run_async_displayed. split; [exact IHr|].
    destruct (decide (v = view)) as [->|Hne].
    + now rewrite Z.eqb_refl.
    + apply Z.eqb_neq in Hne. now rewrite Hne.
  - rewrite append_tags_ranges, append_tags_displayed.
    destruct (decide (v = view)) as [->|Hne].
    + rewrite Z.eqb_refl. split; reflexivity.
    + apply Z.eqb_neq in Hne. rewrite Hne. split; assumption.
Qed.

(** X4: the last write wins.  After any sequence of refresh tasks the
    ranges stored for a view are those of its last full render (none if
    it had none), and the text it shows is that of the last task that
    ran on it, whether loading or full; earlier tasks leave no trace. *)
Theorem world_is_last_write tasks view :
  view_section_ranges (run_tasks tasks) !! view
  = (fun repo => snd (get_contents repo)) <$> last_full view tasks /\
  displayed (run_tasks tasks) !! view = last_text view tasks.
Proof. apply run_tasks_lookup. Qed.

(** X5: every tuple the dict of section ranges ever holds is made of two
    ranges with begin <= end that share no offset, so the slice [:3] of
    the selection commands never drops anything. *)
Theorem stored_ranges_ok tasks view ranges :
  view_section_ranges (run_tasks tasks) !! view = Some ranges ->
  ranges_ok ranges.
Proof.
  destruct (run_tasks_lookup tasks view) as [-> _].
  destruct (last_full view tasks) as [repo|]; [|discriminate].
  intros [= <-]. apply get_contents_ranges_ok.
Qed.



End Refreshes.

(** ** Fields of the resolved items *)

Lemma split_go_fields cur s :
  no_space cur = true ->
  Forall (fun f => is_field f = true) (Py.split_go cur s).
Proof.
  revert cur. induction s as [|c s IH]; intros cur Hcur; simpl.
  - destruct cur as [|a cur]; [constructor|].
    constructor; [|constructor]. unfold is_field. now rewrite Hcur.
  - destruct (Py.isspace c) eqn:Hc.
    + destruct cur as [|a cur]; [now apply IH|].
      constructor; [unfold is_field; now rewrite Hcur|now apply IH].
    + apply IH. unfold no_space in *. rewrite str_forallb_app, Hcur.
      simpl. now rewrite Hc.
Qed.

Lemma items_all_fields lines :
  Forall (Forall (fun f => is_field f = true)) (items_of_lines lines).
Proof.
  unfold items_of_lines.
  apply Forall_forall. intros item Hin.
  apply list_elem_of_In, in_map_iff in Hin as (line & <- & _).
  now apply split_go_fields.
Qed.

Lemma join_empty_cons x l :
  Py.join EmptyString (x :: l) = x +:+ Py.join EmptyString l.
Proof.
  destruct l as [|y l]; [now rewrite app_nil_r|].
  change (Py.join EmptyString (x :: y :: l))
    with (x +:+ EmptyString +:+ Py.join EmptyString (y :: l)).
  now rewrite app_nil_l.
Qed.

(** The fields of a split, put together again, are the characters that
    are not white space. *)
Lemma join_split_go cur s :
  Py.join EmptyString (Py.split_go cur s)
  = cur +:+ str_filter (fun c => negb (Py.isspace c)) s.
Proof.
  revert cur. induction s as [|c s IH]; intros cur; simpl.
  - destruct cur; [reflexivity|]. now rewrite app_nil_r.
  - destruct (Py.isspace c); simpl.
    + destruct cur as [|a cur]; [apply IH|].
      rewrite join_empty_cons, IH. reflexivity.
    + rewrite IH, app_assoc. reflexivity.
Qed.

Lemma str_filter_lstrip s :
  str_filter (fun c => negb (Py.isspace c)) (Py.lstrip s)
  = str_filter (fun c => negb (Py.isspace c)) s.
Proof.
  induction s as [|c s IH]; [reflexivity|].
  simpl. destruct (Py.isspace c) eqn:Hc; simpl; [exact IH|].
  now rewrite Hc.
Qed.

Lemma str_filter_rstrip s :
  str_filter (fun c => negb (Py.isspace c)) (Py.rstrip s)
  = str_filter (fun c => negb (Py.isspace c)) s.
Proof.
  induction s as [|c s IH]; [reflexivity|].
  simpl. destruct (Py.rstrip s) as [|a r].
  - simpl in IH. rewrite <- IH.
    destruct (Py.isspace c) eqn:Hc; simpl; [reflexivity|].
    now rewrite Hc.
  - cbn [str_filter]. cbn [str_filter] in IH. now rewrite IH.
Qed.

Lemma join_parsed_line line :
  Py.join EmptyString (Py.split (Py.strip (Py.str_drop 4 line)))
  = str_filter (fun c => negb (Py.isspace c)) (Py.str_drop 4 line).
Proof.
  unfold Py.split, Py.strip.
  now rewrite join_split_go, app_nil_l, str_filter_rstrip, str_filter_lstrip.
Qed.

(** X7: the parse of the selected lines gives one item per non-empty
    line, in the order of the lines: the fields of the i-th item, put
    together, are the characters other than white space of the i-th
    non-empty line past its first four, in their order; and every field
    of every item is non-empty and free of white space. *)
Theorem items_of_lines_fields lines :
  length (items_of_lines lines) = length (List.filter nonempty lines) /\
  map (Py.join EmptyString) (items_of_lines lines)
  = map (fun line =>
           str_filter (fun c => negb (Py.isspace c)) (Py.str_drop 4 line))
        (List.filter nonempty lines) /\
  Forall (Forall (fun f => is_field f = true)) (items_of_lines lines).
Proof.
  split; [apply length_map|]. split; [|apply items_all_fields].
  unfold items_of_lines. rewrite map_map.
  apply map_ext. intros line. apply join_parsed_line.
Qed.

(** ** Failing part-way *)

Section Failures.
Context `{UtilView}.

Lemma subscript_fail {A} (l : list A) (i : Z) :
  Py.index l i = None -> subscript l i = raise IndexError.
Proof. unfold subscript. now intros ->. Qed.

Lemma for_each_delete_stops good names bad rest :
  names_of good names ->
  Py.index bad 1 = None ->
  for_each GsTagDeleteCommand.delete_item (good ++ bad :: rest)
  = (map (fun name => Git ["tag"; "-d"; name]) names, inl IndexError).
Proof.
  intros Hgood Hbad.
  induction Hgood as [|item name good names Hname _ IH].
  - simpl. unfold GsTagDeleteCommand.delete_item.
    now rewrite (subscript_fail _ _ Hbad).
  - cbn [app for_each map].
    unfold GsTagDeleteCommand.delete_item at 1.
    rewrite (subscript_ok _ _ _ Hname), bind_ret_l, bind_emit, IH.
    reflexivity.
Qed.

(** X8: DeleteSelected is not all-or-nothing.  When an item of the
    resolved selection has no name field, the tags of the items before
    it have been deleted by then, the run stops with IndexError, and
    neither the refresh nor the status message follows. *)
Theorem delete_stops_at_item_without_name
    view_section_ranges view good names bad rest :
  resolves_to view_section_ranges view (good ++ bad :: rest) ->
  names_of good names ->
  Py.index bad 1 = None ->
  GsTagDeleteCommand.run view_section_ranges view
  = (map (fun name => Git ["tag"; "-d"; name]) names, inl IndexError).
Proof.
  intros Hres Hgood Hbad.
  rewrite (delete_run_resolved _ _ _ Hres).
  destruct (good ++ bad :: rest) eqn:Hitems; [now destruct good|].
  rewrite <- Hitems, (for_each_delete_stops _ _ _ _ Hgood Hbad).
  reflexivity.
Qed.

Lemma refs_loop_fails items refs :
  Exists (fun item => Py.index item 1 = None) items ->
  GsTagPushCommand.refs_loop refs items = raise IndexError.
Proof.
  intros Hex. revert refs.
  induction items as [|item items IH]; intros refs; [inversion Hex|].
  simpl. destruct (Py.index item 1) as [name|] eqn:Hitem.
  - rewrite (subscript_ok _ _ _ Hitem), bind_ret_l. apply IH.
    inversion Hex; subst; [congruence|assumption].
  - now rewrite (subscript_fail _ _ Hitem).
Qed.

(** X9: when some item of the resolved selection has no name field and
    a remote is chosen, the flow of PushSelected with push_all=false
    shows the starting message and stops with IndexError while it builds
    the refs: no push is made, not even of the items before the
    malformed one, and the complete message is not shown. *)
Theorem push_stops_before_pushing
    s view_section_ranges view items remotes remote_index remote :
  resolves_to view_section_ranges view items ->
  Exists (fun item => Py.index item 1 = None) items ->
  remote_index <> (-1)%Z ->
  Py.index remotes remote_index = Some remote ->
  GsTagPushCommand.flow s view_section_ranges view false remotes remote_index
  = ([GetRemotes; ShowQuickPanel remotes; StatusMessage START_PUSH_MESSAGE],
     inl IndexError).
Proof.
  intros Hres Hex Hidx Hremote.
  unfold GsTagPushCommand.flow.
  rewrite (push_run_resolved _ _ _ _ Hres), bind_ret_l.
  erewrite trace_bind_ok
    by (apply push_run_async_ok; eapply index_nonempty; eassumption).
  unfold GsTagPushCommand.on_select_remote.
  destruct (Z.eqb_spec remote_index (-1)) as [|_]; [contradiction|].
  cbn [GsTagPushCommand.remotes GsTagPushCommand.push_all
       GsTagPushCommand.items].
  rewrite (subscript_ok _ _ _ Hremote), bind_ret_l.
  destruct items as [|item items]; [inversion Hex|].
  rewrite (refs_loop_fails _ _ Hex). reflexivity.
Qed.

(** X10: PushSelected with push_all=true never looks at the selection or
    at the dict of section ranges: whatever they are, even for a view
    that was never rendered, a chosen remote gets exactly one
    [git push <remote> --tags] between the two status messages. *)
Theorem push_all_pushes_tags s view_section_ranges view remotes remote_index
    remote :
  remote_index <> (-1)%Z ->
  Py.index remotes remote_index = Some remote ->
  GsTagPushCommand.flow s view_section_ranges view true remotes remote_index
  = ([GetRemotes; ShowQuickPanel remotes;
      StatusMessage START_PUSH_MESSAGE;
      Git ["push"; remote; "--tags"];
      StatusMessage END_PUSH_MESSAGE], inr tt).
Proof.
  intros Hidx Hremote. unfold GsTagPushCommand.flow, GsTagPushCommand.run.
  rewrite !bind_ret_l.
  erewrite trace_bind_ok
    by (apply push_run_async_ok; eapply index_nonempty; eassumption).
  unfold GsTagPushCommand.on_select_remote.
  destruct (Z.eqb_spec remote_index (-1)) as [|_]; [contradiction|].
  cbn [GsTagPushCommand.remotes GsTagPushCommand.push_all
       GsTagPushCommand.items].
  rewrite (subscript_ok _ _ _ Hremote), bind_ret_l. reflexivity.
Qed.

(** X11: with no remote configured the push flow, once [run] has gone
    through, asks for the remotes and stops with NameError on the
    unbound NO_REMOTES_MESSAGE: no panel is shown, no status message, no
    push. *)
Theorem push_without_remotes_raises s view_section_ranges view push_all
    remote_index s' :
  GsTagPushCommand.run s view_section_ranges view push_all = ret s' ->
  GsTagPushCommand.flow s view_section_ranges view push_all [] remote_index
  = ([GetRemotes], inl NameError).
Proof.
  intros Hrun. unfold GsTagPushCommand.flow.
  rewrite Hrun, bind_ret_l. reflexivity.
Qed.

(** X12: an answer of the remote panel that indexes no remote (and is
    not the cancel value -1) stops [on_select_remote] with IndexError
    before anything is shown or pushed; a negative answer from -2 down
    to minus the number of remotes counts from the end of the list and
    pushes. *)
Theorem on_select_remote_index s remote_index :
  remote_index <> (-1)%Z ->
  (Py.index (GsTagPushCommand.remotes s) remote_index = None ->
   GsTagPushCommand.on_select_remote s remote_index = raise IndexError) /\
  ((- Z.of_nat (length (GsTagPushCommand.remotes s)) <= remote_index < -1)%Z ->
   GsTagPushCommand.push_all s = true ->
   exists remote,
     GsTagPushCommand.remotes s
       !! Z.to_nat (remote_index
                    + Z.of_nat (length (GsTagPushCommand.remotes s)))
     = Some remote /\
     GsTagPushCommand.on_select_remote s remote_index
     = ([StatusMessage START_PUSH_MESSAGE; Git ["push"; remote; "--tags"];
         StatusMessage END_PUSH_MESSAGE], inr tt)).
Proof.
  intros Hidx. unfold GsTagPushCommand.on_select_remote.
  destruct (Z.eqb_spec remote_index (-1)) as [|_]; [contradiction|].
  split.
  - intros Hnone. now rewrite (subscript_fail _ _ Hnone).
  - intros Hrange Hall.
    set (n := length (GsTagPushCommand.remotes s)) in *.
    destruct (lookup_lt_is_Some_2 (GsTagPushCommand.remotes s)
                (Z.to_nat (remote_index + Z.of_nat n))) as [remote Hremote].
    { fold n. lia. }
    exists remote. split; [exact Hremote|].
    assert (Py.index (GsTagPushCommand.remotes s) remote_index = Some remote)
      as Hpy.
    { unfold Py.index. fold n.
      destruct (Z.leb_spec 0 remote_index); [lia|].
      destruct (Z.leb_spec 0 (remote_index + Z.of_nat n)); [exact Hremote|lia]. }
    rewrite (subscript_ok _ _ _ Hpy), bind_ret_l, Hall. reflexivity.
Qed.

Lemma resolved_items_fields view_section_ranges view items :
  resolves_to view_section_ranges view items ->
  Forall (Forall (fun f => is_field f = true)) items.
Proof.
  unfold resolves_to, selected_items, valid_ranges_of.
  destruct (view_section_ranges !! view_id view); [|discriminate].
  rewrite bind_ret_l. intros [= <-]. apply items_all_fields.
Qed.

(** X13: ShowLogForSelection looks at the first resolved item only,
    whatever follows it in the selection, well-formed or not: it makes
    one call, [git log -1 --pretty=medium <hash>] with the first field of
    that item, which is non-empty and free of white space, and shows the
    result in a panel; when the first item has no field at all it stops
    with IndexError. *)
Theorem view_log_first_item_only view_section_ranges view item rest :
  resolves_to view_section_ranges view (item :: rest) ->
  match item with
  | [] => GsTagViewLogCommand.run view_section_ranges view = raise IndexError
  | hash :: _ =>
      is_field hash = true /\
      GsTagViewLogCommand.run view_section_ranges view
      = ([GitShowPanel ["log"; "-1"; "--pretty=medium"; hash]], inr tt)
  end.
Proof.
  intros Hres.
  pose proof (resolved_items_fields _ _ _ Hres) as Hfields.
  unfold GsTagViewLogCommand.run. rewrite Hres, bind_ret_l.
  destruct item as [|hash fields]; [reflexivity|].
  split; [|reflexivity].
  apply Forall_cons_1 in Hfields as [Hitem _].
  now apply Forall_cons_1 in Hitem as [Hhash _].
Qed.

End Failures.

(** ** Creating a tag *)

(** X14: CreateTag with a name and an answered message prompt makes one
    git call, [git tag <name> -F -], with the message on standard input:
    the message as entered, or the configured default message for that
    name when the entry is empty.  Nothing else follows: no refresh and
    no status message. *)
Theorem create_tag_one_call default_tag_message tag_name message :
  nonempty tag_name = true ->
  GsTagCreateCommand.flow default_tag_message tag_name (Entered message)
  = ([ShowInputPanel TAG_CREATE_PROMPT;
      ShowInputPanel TAG_CREATE_MESSAGE_PROMPT;
      GitStdin ["tag"; tag_name; "-F"; "-"]
        (if nonempty message then message
         else default_tag_message tag_name)], inr tt).
Proof.
  intros Hname. unfold GsTagCreateCommand.flow,
    GsTagCreateCommand.on_entered_tag. rewrite Hname. reflexivity.
Qed.

(** ** The further properties at the example repositories *)

Section MoreExamples.
Import GsTagsRefreshCommand.

Lemma no_tags_message_witness :
  get_contents (repo_of [])
  = (header_of (repo_of []) +:+ NO_TAGS_MESSAGE +:+ KEY_BINDINGS_MENU,
     [mkRegion 0 0; mkRegion 0 0]).
Proof.
  apply (proj1 (no_tags_message_iff_no_tags (repo_of []))). reflexivity.
Defined.

Lemma ranges_slice_blocks_witness :
  exists r, snd (get_contents repoA) !! 0 = Some r /\
            rbegin r = String.length (header_of repoA) /\
            str_slice (rbegin r) (rend r) (fst (get_contents repoA))
            = local_text_of [tag_v1].
Proof.
  pose proof (ranges_slice_blocks repoA) as Hslice.
  change (sort_tag_entries (get_tags repoA)) with ([tag_v1], @nil RemoteGroup)
    in Hslice.
  cbv iota beta in Hslice.
  rewrite (surjective_pairing (get_contents repoA)) in Hslice.
  apply (proj1 Hslice). discriminate.
Defined.

Lemma stored_ranges_ok_witness : ranges_ok [mkRegion 0 0; mkRegion 117 152].
Proof.
  apply (stored_ranges_ok (refresh 5 repoR2) 5). vm_compute. reflexivity.
Defined.


Lemma delete_stops_witness :
  @GsTagDeleteCommand.run
    (lines_given ["    abcdef1 v1.0"; "  LOCAL:"; "    0123456 v2.0"])
    (view_section_ranges worldL2) (view_of worldL2 5 [95])
  = ([Git ["tag"; "-d"; "v1.0"]], inl IndexError).
Proof.
  apply (@delete_stops_at_item_without_name
           (lines_given ["    abcdef1 v1.0"; "  LOCAL:"; "    0123456 v2.0"])
           (view_section_ranges worldL2) (view_of worldL2 5 [95])
           [["abcdef1"; "v1.0"]] ["v1.0"] ["CAL:"] [["0123456"; "v2.0"]]).
  - vm_compute. reflexivity.
  - repeat constructor.
  - reflexivity.
Defined.

Lemma push_stops_witness :
  GsTagPushCommand.flow fresh_self (view_section_ranges worldA)
    (view_of worldA 5 [85]) false ["origin"] 0
  = ([GetRemotes; ShowQuickPanel ["origin"];
      StatusMessage START_PUSH_MESSAGE], inl IndexError).
Proof.
  apply (push_stops_before_pushing fresh_self (view_section_ranges worldA)
           (view_of worldA 5 [85]) [["CAL:"]] ["origin"] 0 "origin").
  - vm_compute. reflexivity.
  - constructor. reflexivity.
  - discriminate.
  - reflexivity.
Defined.

Lemma push_all_witness :
  GsTagPushCommand.flow fresh_self ∅ (mkView 9 EmptyString []) true
    ["origin"; "fork"] 0
  = ([GetRemotes; ShowQuickPanel ["origin"; "fork"];
      StatusMessage START_PUSH_MESSAGE;
      Git ["push"; "origin"; "--tags"];
      StatusMessage END_PUSH_MESSAGE], inr tt).
Proof.
  apply (push_all_pushes_tags fresh_self ∅ (mkView 9 EmptyString []));
    [discriminate|reflexivity].
Defined.

Lemma push_without_remotes_witness :
  GsTagPushCommand.flow fresh_self ∅ (mkView 9 EmptyString []) true [] 0
  = ([GetRemotes], inl NameError).
Proof.
  apply (push_without_remotes_raises fresh_self ∅ (mkView 9 EmptyString [])
           true 0 (GsTagPushCommand.mkSelf None true [])).
  reflexivity.
Defined.

Lemma on_select_remote_index_witness :
  GsTagPushCommand.on_select_remote
    (GsTagPushCommand.mkSelf None true ["origin"; "fork"]) 2
  = raise IndexError /\
  exists remote,
    ["origin"; "fork"] !! Z.to_nat (-2 + 2) = Some remote /\
    GsTagPushCommand.on_select_remote
      (GsTagPushCommand.mkSelf None true ["origin"; "fork"]) (-2)
    = ([StatusMessage START_PUSH_MESSAGE; Git ["push"; remote; "--tags"];
        StatusMessage END_PUSH_MESSAGE], inr tt).
Proof.
  split.
  - apply (proj1 (on_select_remote_index
                    (GsTagPushCommand.mkSelf None true ["origin"; "fork"]) 2
                    ltac:(discriminate))).
    reflexivity.
  - apply (proj2 (on_select_remote_index
                    (GsTagPushCommand.mkSelf None true ["origin"; "fork"])
                    (-2) ltac:(discriminate))).
    + simpl. lia.
    + reflexivity.
Defined.

Lemma view_log_witness :
  is_field "abcdef1" = true /\
  GsTagViewLogCommand.run (view_section_ranges worldL2)
    (view_of worldL2 5 [95; 110])
  = ([GitShowPanel ["log"; "-1"; "--pretty=medium"; "abcdef1"]], inr tt).
Proof.
  apply (view_log_first_item_only (view_section_ranges worldL2)
           (view_of worldL2 5 [95; 110])
           ["abcdef1"; "v1.0"] [["0123456"; "v2.0"]]).
  vm_compute. reflexivity.
Defined.

Lemma create_tag_witness :
  GsTagCreateCommand.flow (fun name => "Tag " +:+ name) "v2.0"
    (Entered EmptyString)
  = ([ShowInputPanel TAG_CREATE_PROMPT;
      ShowInputPanel TAG_CREATE_MESSAGE_PROMPT;
      GitStdin ["tag"; "v2.0"; "-F"; "-"] "Tag v2.0"], inr tt).
Proof.
  apply (create_tag_one_call (fun name => "Tag " +:+ name) "v2.0"
           EmptyString).
  reflexivity.
Defined.

End MoreExamples.

(** ** What the selection commands can reach *)

Section Reach.
Import GsTagsRefreshCommand.

(** X15: a recorded range is either the empty range at 0 or lies between
    the end of the header and the start of the key-bindings menu: no
    line of the header or of the menu is ever inside a section range. *)
Theorem ranges_between_header_and_menu repo :
  let '(text, ranges) := get_contents repo in
  Forall
    (fun r => r = mkRegion 0 0 \/
              (String.length (header_of repo) <= rbegin r /\
               rend r + String.length KEY_BINDINGS_MENU
               <= String.length text))
    ranges.
Proof.
  destruct (sort_tag_entries (get_tags repo)) as [local remotes] eqn:Hsort.
  destruct (render_blocks_spec repo local remotes Hsort)
    as (_ & _ & Hl & Hr0 & Hr).
  pose proof (get_contents_text repo local remotes Hsort) as Htext.
  destruct (get_contents repo) as [text ranges] eqn:Hget.
  unfold get_contents in Hget. injection Hget as _ <-. cbn [fst] in Htext.
  rewrite Hl. clear Hl.
  set (h := String.length (header_of repo)) in *.
  set (k := String.length KEY_BINDINGS_MENU).
  assert (forall t l, 0 < String.length (local_block (t :: l))) as Hlocal
    by (intros; apply length_local_text).
  destruct (list_nil_or_snoc remotes) as [-> | (gs & g & ->)].
  - rewrite (Hr0 eq_refl).
    destruct local as [|t local]; constructor;
      try (constructor; [now left|constructor]); [now left|].
    right. cbn [rbegin rend]. split; [lia|].
    rewrite Htext by (rewrite length_app; specialize (Hlocal t local); lia).
    rewrite !length_app. fold h k. lia.
  - rewrite (Hr gs g eq_refl).
    pose proof (length_remote_text g) as Hg.
    assert (String.length text
            = h + String.length (local_block local)
              + String.length (blocks_text gs)
              + String.length (remote_text_of g) + k) as Hlen.
    { rewrite Htext
        by (rewrite blocks_text_snoc, !length_app; lia).
      rewrite blocks_text_snoc, !length_app. fold h k. lia. }
    destruct local as [|t local]; constructor;
      try (constructor; [|constructor]);
      first [now left | right; cbn [rbegin rend]; lia].
Qed.

End Reach.

Section Resolving.
Context `{UtilView}.

Lemma last_full_none_iff view tasks :
  last_full view tasks = None <-> never_fully_rendered view tasks = true.
Proof.
  induction tasks as [|t tasks IH] using rev_ind; [split; reflexivity|].
  rewrite last_full_snoc. unfold never_fully_rendered in *.
  rewrite forallb_app, andb_true_iff. simpl. rewrite andb_true_r.
  destruct t as [v repo | v repo].
  - rewrite IH. tauto.
  - destruct (v =? view)%Z; simpl.
    + split; [discriminate|intros [_ [=]]].
    + rewrite IH. tauto.
Qed.

(** X16: the full render is all a selection command needs.  Once a full
    render of the view has completed, whatever refresh tasks ran before
    or after it, resolving the selection of the view returns items and
    does not raise KeyError. *)
Theorem fully_rendered_resolves tasks view :
  never_fully_rendered (view_id view) tasks = false ->
  exists items,
    selected_items (view_section_ranges (run_tasks tasks)) view = ret items.
Proof.
  intros Hfull.
  destruct (view_section_ranges (run_tasks tasks) !! view_id view)
    as [ranges|] eqn:Hlook.
  - eexists. unfold selected_items, valid_ranges_of.
    rewrite Hlook, bind_ret_l. reflexivity.
  - exfalso.
    destruct (run_tasks_lookup tasks (view_id view)) as [Hranges _].
    rewrite Hranges in Hlook.
    destruct (last_full (view_id view) tasks) as [repo|] eqn:Hlast;
      [discriminate|].
    apply last_full_none_iff in Hlast. congruence.
Qed.

Lemma delete_trace_items items :
  Forall
    (fun e => exists item name,
                In item items /\ Py.index item 1 = Some name /\
                e = Git ["tag"; "-d"; name])
    (trace (for_each GsTagDeleteCommand.delete_item items)).
Proof.
  induction items as [|item items IH]; [constructor|].
  simpl. unfold GsTagDeleteCommand.delete_item at 1. unfold subscript.
  destruct (Py.index item 1) as [name|] eqn:Hname.
  - rewrite bind_ret_l, bind_emit. cbn [trace fst]. constructor.
    + exists item, name. repeat split; [now left|exact Hname].
    + eapply Forall_impl; [exact IH|].
      intros e (it & n & Hin & Hn & ->). exists it, n.
      repeat split; [now right|exact Hn].
  - constructor.
Qed.

Lemma index_in {A} (l : list A) i x : Py.index l i = Some x -> In x l.
Proof.
  unfold Py.index. intros Hi. apply list_elem_of_In.
  destruct (0 <=? i)%Z; [now apply list_elem_of_lookup_2 in Hi|].
  destruct (0 <=? i + _)%Z; [now apply list_elem_of_lookup_2 in Hi|].
  discriminate.
Qed.

Lemma trace_bind_raise {A B} (m : M A) (k : A -> M B) t e :
  m = (t, inl e) -> bind m k = (t, inl e).
Proof. now intros ->. Qed.

(** X17: whatever is selected and whatever the helper returns, every
    call DeleteSelected makes on git is [git tag -d <name>] with a name
    that is non-empty and free of white space; besides those it only
    asks for the refresh and shows the status message. *)
Theorem delete_only_deletes_named_tags view_section_ranges view :
  Forall
    (fun e =>
       (exists name, e = Git ["tag"; "-d"; name] /\ is_field name = true) \/
       e = RefreshGitsavvy \/ e = StatusMessage TAG_DELETE_MESSAGE)
    (trace (GsTagDeleteCommand.run view_section_ranges view)).
Proof.
  unfold GsTagDeleteCommand.run.
  destruct (selected_items_cases view_section_ranges view)
    as [Herr | [items Hok]].
  { rewrite Herr. constructor. }
  rewrite Hok, bind_ret_l.
  assert (Forall (Forall (fun f => is_field f = true)) items) as Hfields.
  { unfold selected_items, valid_ranges_of in Hok.
    destruct (view_section_ranges !! view_id view); [|discriminate].
    rewrite bind_ret_l in Hok. injection Hok as <-.
    apply items_all_fields. }
  assert (Forall
            (fun e => exists name,
                        e = Git ["tag"; "-d"; name] /\ is_field name = true)
            (trace (for_each GsTagDeleteCommand.delete_item items)))
    as Hdel.
  { eapply Forall_impl; [apply delete_trace_items|].
    intros e (item & name & Hin & Hname & ->). exists name.
    split; [reflexivity|].
    apply list_elem_of_In in Hin.
    rewrite Forall_forall in Hfields. specialize (Hfields item Hin).
    rewrite Forall_forall in Hfields. apply Hfields.
    apply list_elem_of_In. eapply index_in. exact Hname. }
  destruct items as [|item items]; [constructor|].
  destruct (for_each GsTagDeleteCommand.delete_item (item :: items))
    as [t [e|[]]] eqn:Hloop; cbn [trace fst] in Hdel.
  - rewrite (trace_bind_raise _ _ t e eq_refl). cbn [trace fst].
    eapply Forall_impl; [exact Hdel|]. intros ev Hev. now left.
  - rewrite (trace_bind_ok _ _ t tt eq_refl). cbn [trace fst].
    apply Forall_app. split.
    + eapply Forall_impl; [exact Hdel|]. intros ev Hev. now left.
    + change (trace (emit RefreshGitsavvy ;;
                     emit (StatusMessage TAG_DELETE_MESSAGE)))
        with [RefreshGitsavvy; StatusMessage TAG_DELETE_MESSAGE].
      constructor; [right; now left|].
      constructor; [right; now right|]. constructor.
Qed.

End Resolving.

Lemma fully_rendered_resolves_witness :
  exists items,
    selected_items
      (view_section_ranges (run_tasks (refresh 5 repoA ++ [RunAsync 5 repoA])))
      (mkView 5 (GsTagsRefreshCommand.get_contents_loading repoA) [95])
    = ret items.
Proof.
  apply (fully_rendered_resolves (refresh 5 repoA ++ [RunAsync 5 repoA])
           (mkView 5 (GsTagsRefreshCommand.get_contents_loading repoA) [95])).
  reflexivity.
Defined.
